(** * MyBlog persistence model ([app/models.py], chapter 9, example 05)

    A shallow embedding of [app/models.py]: the session scope helper
    [db_session_manager], the [User] entity with its credential and token
    methods, and the [Role] lookup table with [initialize_role_table].

    Conventions.
    - A Python call that may raise returns a [result]: [Return v] or
      [Raise e].
    - The shared [db.session] is threaded explicitly: a method that uses it
      takes the session and gives the new one back.
    - A method that assigns to an attribute of [self] gives the new object
      back.
    - The clock is an argument [now].  itsdangerous reads it in whole
      seconds ([int(time.time())]): an integer.  [time.time()] itself and
      PyJWT's clock carry fractions of a second: a rational number; the
      rounding of floating-point arithmetic is not represented.
    - The application configuration is a record: [SECRET_KEY] is always
      there, [CONFIRMATION_LINK_TIMEOUT] may be missing.
    - The collaborating libraries (flask_bcrypt, itsdangerous, PyJWT,
      SQLAlchemy) are not part of the repository.  Each is modelled by the
      control flow of its documented contract; the cryptographic primitives
      beneath them (the keyed signatures, the bcrypt digest) and the random
      source stay abstract, as variables of the sections below.
    - Where the libraries' releases differ on an input, the difference is
      a parameter: what bcrypt does with a password longer than 72 bytes
      or with a NUL byte in it, what [enum.Flag] does with an integer out
      of range, what PyJWT makes of registered claims other than [exp].
    - A stored [hashed_password] is a hash bcrypt produced. *)

From Stdlib Require Import ZArith QArith Qround Lqa.
From Stdlib Require Import List String Bool Lia Permutation.
Import ListNotations.

Local Open Scope string_scope.
Local Open Scope list_scope.
Local Open Scope Z_scope.

(** ** Python exceptions and results *)

Module Py.

(** The exception classes the module can meet.  [KeyboardInterrupt],
    [SystemExit] and [GeneratorExit] derive from [BaseException] only;
    every other class derives from [Exception].  In itsdangerous,
    [SignatureExpired] derives from [BadSignature]; [BadPayload] does
    not. *)
Inductive exn : Type :=
| AttributeError (msg : string)
| TypeError (msg : string)
| ValueError (msg : string)
| KeyError (key : string)
| BadSignature
| SignatureExpired
| BadPayload
| InvalidSignatureError
| ExpiredSignatureError
| DecodeError
| MultipleResultsFound
| OtherException (name : string)
| KeyboardInterrupt
| SystemExit
| GeneratorExit.

(** [isinstance(e, Exception)] *)
Definition isinstance_Exception (e : exn) : bool :=
  match e with
  | KeyboardInterrupt | SystemExit | GeneratorExit => false
  | _ => true
  end.

(** [isinstance(e, (SignatureExpired, BadSignature))] *)
Definition isinstance_BadSignature (e : exn) : bool :=
  match e with
  | BadSignature | SignatureExpired => true
  | _ => false
  end.

Inductive result (A : Type) : Type :=
| Return (v : A)
| Raise (e : exn).
Arguments Return {A} v.
Arguments Raise {A} e.

(** JSON values held by the entries of token payloads (strings, integers,
    numbers with a fraction, and values of another kind -- [null], a
    boolean, a list, an object -- kept as their text), and JSON objects as
    association lists ([dict.get] is [get]). *)
Inductive jval : Type :=
| JStr (s : string)
| JNum (n : Z)
| JReal (x : Q)
| JAny (text : string).

Definition dict : Type := list (string * jval).

Fixpoint get (k : string) (d : dict) : option jval :=
  match d with
  | [] => None
  | (k', v) :: d' => if String.eqb k k' then Some v else get k d'
  end.

(** [x != y] where [x] is the result of [dict.get] and [y] a string. *)
Definition ne_str (x : option jval) (y : string) : bool :=
  match x with
  | Some (JStr s) => negb (String.eqb s y)
  | _ => true
  end.

(** What a JSON text decodes to: an object, or a value of another kind (a
    string, a number, a list, [null], ...), kept as its text. *)
Inductive json : Type :=
| JObject (d : dict)
| JOther (text : string).

(** The bytes a serializer has signed: a JSON text, or bytes that decode
    to no JSON. *)
Inductive content : Type :=
| Json (v : json)
| NotJson (bytes : string).

(** Whether a byte string has a NUL byte in it. *)
Fixpoint has_nul (s : string) : bool :=
  match s with
  | EmptyString => false
  | String c s' => Ascii.eqb c Ascii.zero || has_nul s'
  end.

(** [int(x)] for a number [x]: the fraction is dropped, toward zero. *)
Definition python_int (x : Q) : Z := Z.quot (Qnum x) (Zpos (Qden x)).

(** A reading of [time.time()]: the seconds since the epoch, never
    negative, with their fraction ([ticks / per_second]). *)
Record instant : Type := mkInstant {
  ticks : N;
  per_second : positive
}.

Definition seconds (t : instant) : Q := Z.of_N (ticks t) # per_second t.

End Py.
Import Py.

(** ** The entities *)

(** A bcrypt hash string, read the way bcrypt reads it: the salt it starts
    with and the digest that follows. *)
Record bcrypt_hash : Type := mkHash {
  salt : string;
  digest : string
}.

Definition bcrypt_hash_eqb (a b : bcrypt_hash) : bool :=
  String.eqb (salt a) (salt b) && String.eqb (digest a) (digest b).

(** A row of the [user] table / a [User] object. *)
Record User : Type := mkUser {
  user_uid : string;
  user_role_uid : string;
  first_name : string;
  last_name : string;
  email : string;
  hashed_password : bcrypt_hash;
  user_active : bool;
  confirmed : bool;
  user_created : Z;
  user_updated : Z
}.

(** A row of the [role] table / a flushed [Role] object. *)
Record Role : Type := mkRole {
  role_uid : string;
  name : string;
  description : string;
  raw_permissions : Z;
  role_active : bool;
  role_created : Z;
  role_updated : Z
}.

(** A [Role(name=..., description=..., raw_permissions=...)] object that has
    been constructed but not yet inserted: the remaining columns get their
    defaults at the INSERT. *)
Record NewRole : Type := mkNewRole {
  new_name : string;
  new_description : string;
  new_raw_permissions : Z
}.

Definition set_confirmed (b : bool) (u : User) : User :=
  mkUser (user_uid u) (user_role_uid u) (first_name u) (last_name u) (email u)
         (hashed_password u) (user_active u) b (user_created u)
         (user_updated u).

Definition set_hashed_password (h : bcrypt_hash) (u : User) : User :=
  mkUser (user_uid u) (user_role_uid u) (first_name u) (last_name u) (email u)
         h (user_active u) (confirmed u) (user_created u) (user_updated u).

Definition set_user_updated (t : Z) (u : User) : User :=
  mkUser (user_uid u) (user_role_uid u) (first_name u) (last_name u) (email u)
         (hashed_password u) (user_active u) (confirmed u) (user_created u) t.

Definition User_eqb (a b : User) : bool :=
  String.eqb (user_uid a) (user_uid b)
  && String.eqb (user_role_uid a) (user_role_uid b)
  && String.eqb (first_name a) (first_name b)
  && String.eqb (last_name a) (last_name b)
  && String.eqb (email a) (email b)
  && bcrypt_hash_eqb (hashed_password a) (hashed_password b)
  && Bool.eqb (user_active a) (user_active b)
  && Bool.eqb (confirmed a) (confirmed b)
  && Z.eqb (user_created a) (user_created b)
  && Z.eqb (user_updated a) (user_updated b).

(** ** Column defaults (SQLAlchemy)

    [default=] and [onupdate=] accept either a scalar, used as it is for
    every statement, or a callable, invoked when the statement runs.
    [default=get_uuid] hands over the function; the timestamp columns hand
    over [datetime.now(tz=timezone.utc)], the value of a call made once,
    while the class body runs.  [C] is what a callable reads when it is
    invoked: the clock, or the random source. *)
Inductive column_default (C A : Type) : Type :=
| Scalar (v : A)
| Callable (f : C -> A).
Arguments Scalar {C A} v.
Arguments Callable {C A} f.

(** The value a default yields for a statement that runs in context [c]. *)
Definition default_value {C A : Type} (d : column_default C A) (c : C) : A :=
  match d with
  | Scalar v => v
  | Callable f => f c
  end.

(** ** The shared session (SQLAlchemy's [db.session]) *)

(** The calls made on the session that change its state, in order. *)
Inductive call : Type :=
| CallAdd
| CallCommit
| CallRollback
| CallClose.

Record Session : Type := mkSession {
  db_users : list User;       (* the user table as last committed *)
  db_roles : list Role;       (* the role table as last committed *)
  tx_users : list User;       (* the user table inside the open transaction *)
  tx_roles : list Role;       (* the role table inside the open transaction *)
  added_users : list User;    (* User objects given to add(), not yet flushed *)
  added_roles : list NewRole; (* new Role objects given to add(), not flushed *)
  draws : nat;                (* how many values uuid4() has produced so far *)
  calls : list call
}.

Definition log (c : call) (s : Session) : Session :=
  mkSession (db_users s) (db_roles s) (tx_users s) (tx_roles s)
            (added_users s) (added_roles s) (draws s) (calls s ++ [c]).

(** [Session.rollback()]: the open transaction and everything pending is
    dropped; the random source is not rewound. *)
Definition rollback (s : Session) : Session :=
  log CallRollback
      (mkSession (db_users s) (db_roles s) (db_users s) (db_roles s)
                 [] [] (draws s) (calls s)).

(** [Session.close()]: releases the transaction (uncommitted work is lost)
    and expunges every object. *)
Definition close (s : Session) : Session :=
  log CallClose
      (mkSession (db_users s) (db_roles s) (db_users s) (db_roles s)
                 [] [] (draws s) (calls s)).

(** [Session.add(user)] *)
Definition add_user (u : User) (s : Session) : Session :=
  log CallAdd
      (mkSession (db_users s) (db_roles s) (tx_users s) (tx_roles s)
                 (added_users s ++ [u]) (added_roles s) (draws s) (calls s)).

(** [Session.add(role)] for a Role object just constructed. *)
Definition add_new_role (r : NewRole) (s : Session) : Session :=
  log CallAdd
      (mkSession (db_users s) (db_roles s) (tx_users s) (tx_roles s)
                 (added_users s) (added_roles s ++ [r]) (draws s) (calls s)).

(** [Session.add(role)] for a Role object the session loaded itself: it is
    in the session already. *)
Definition add_role (s : Session) : Session := log CallAdd s.

(** [Query.one_or_none()] *)
Definition one_or_none {A : Type} (rows : list A) : result (option A) :=
  match rows with
  | [] => Return None
  | [x] => Return (Some x)
  | _ :: _ :: _ => Raise MultipleResultsFound
  end.

(** ** [db_session_manager] *)

(** [body] is the block under [with db_session_manager(...) as db_session]:
    it runs on the session and either completes with a value (falling off
    the end or returning) or raises. *)
Definition db_session_manager {A : Type} (session_close : bool)
    (body : Session -> Session * result A) (s : Session)
    : Session * result A :=
  let '(s1, r) := body s in
  let s2 :=
    match r with
    | Raise e => if isinstance_Exception e then rollback s1 else s1
    | Return _ => s1
    end in
  let s3 := if session_close then close s2 else s2 in
  (s3, r).

(** ** [Role.Permissions] *)

Module Permissions.
Inductive t : Type := REGISTERED | EDITOR | ADMINISTRATOR.

(** Position of a member in the class body. *)
Definition position (p : t) : Z :=
  match p with
  | REGISTERED => 0
  | EDITOR => 1
  | ADMINISTRATOR => 2
  end.

(** [enum.Flag] with [auto()]: the members get 1, 2, 4, ... in order. *)
Definition value (p : t) : Z := Z.shiftl 1 (position p).

(** [(a | b | ...).value] *)
Definition union (ps : list t) : Z :=
  fold_left (fun acc p => Z.lor acc (value p)) ps 0.
End Permissions.

(** ** Application configuration ([current_app.config]) *)

Record Config : Type := mkConfig {
  SECRET_KEY : string;
  CONFIRMATION_LINK_TIMEOUT : option Z   (* [config.get]: [None] when absent *)
}.

(** ** What the collaborators' releases differ on *)

(** bcrypt and a password longer than 72 bytes. *)
Inductive long_password_policy : Type :=
| Truncates
| Rejects.

(** bcrypt and a password with a NUL byte in it: the releases written in
    C (up to 3.2) refuse it with [ValueError], the later ones hash it like
    any other byte. *)
Inductive nul_byte_policy : Type :=
| HashesNul
| RefusesNul.

(** [enum.Flag] and an integer with bits outside the members': CPython up
    to 3.10 and from 3.11.4 raises [ValueError] (STRICT), CPython 3.11.0
    to 3.11.3 drops the bits (CONFORM). *)
Inductive flag_boundary : Type :=
| STRICT
| CONFORM.

(** ** The module, over its collaborators' primitives *)

Section Models.

(** [uuid4().hex] of the [n]-th call to [uuid4]. *)
Variable uuid4_hex : nat -> string.

(** The clock reading while the module is imported, when the class bodies
    of [User] and [Role] run. *)
Variable import_time : Z.

(** itsdangerous: the signature [URLSafeTimedSerializer] computes under a
    secret key over a payload and its timestamp. *)
Variable timed_signature : string -> content -> Z -> string.

(** PyJWT: the HS256 signature under a key over the claims. *)
Variable hs256 : string -> dict -> string.

(** PyJWT: its verdict, at a given time, on a claim set that it validates
    in a way that depends on its release -- one that carries a registered
    claim other than [exp], or an [exp] that is a string: the exception
    raised, [None] when the claims pass. *)
Variable validate_claims : dict -> instant -> option exn.

(** bcrypt: the digest of a password (of at most 72 bytes) under a salt. *)
Variable bcrypt_digest : string -> string -> string.

(** bcrypt: what [hashpw] does with a password longer than 72 bytes.
    Releases before 5.0 read the first 72 bytes; from 5.0 on [hashpw]
    raises [ValueError]. *)
Variable bcrypt_long_passwords : long_password_policy.

(** bcrypt: what [hashpw] does with a NUL byte in the password. *)
Variable bcrypt_nul_bytes : nul_byte_policy.

(** *** [get_uuid] *)

Definition get_uuid (n : nat) : string := uuid4_hex n.

(** *** Column declarations of [User] and [Role] *)

Definition User_user_uid_default : column_default nat string :=
  Callable get_uuid.
Definition User_created_default : column_default Z Z := Scalar import_time.
Definition User_updated_default : column_default Z Z := Scalar import_time.
Definition User_updated_onupdate : column_default Z Z := Scalar import_time.

Definition Role_role_uid_default : column_default nat string :=
  Callable get_uuid.
Definition Role_active_default : column_default unit bool := Scalar true.
Definition Role_created_default : column_default Z Z := Scalar import_time.
Definition Role_updated_default : column_default Z Z := Scalar import_time.
Definition Role_updated_onupdate : column_default Z Z := Scalar import_time.

(** *** Flushing (SQLAlchemy's unit of work) *)

(** INSERT of a new Role at [now], [n] values of [uuid4] drawn before. *)
Definition insert_role (now : Z) (n : nat) (r : NewRole) : Role :=
  mkRole (default_value Role_role_uid_default n)
         (new_name r) (new_description r) (new_raw_permissions r)
         (default_value Role_active_default tt)
         (default_value Role_created_default now)
         (default_value Role_updated_default now).

Fixpoint insert_roles (now : Z) (rs : list NewRole) (n : nat)
    (tbl : list Role) : list Role * nat :=
  match rs with
  | [] => (tbl, n)
  | r :: rs' => insert_roles now rs' (S n) (tbl ++ [insert_role now n r])
  end.

(** UPDATE of a row to the state of the object [u], at [now].  No
    statement is issued when nothing changed; [onupdate] fills [updated]
    unless the object carries a value of its own for it. *)
Definition update_user (now : Z) (row u : User) : User :=
  if User_eqb row u then row
  else if Z.eqb (user_updated row) (user_updated u)
       then set_user_updated (default_value User_updated_onupdate now) u
       else u.

(** Flush of one added User: UPDATE of the row with its primary key, or
    INSERT when there is none. *)
Fixpoint save_user (now : Z) (u : User) (tbl : list User) : list User :=
  match tbl with
  | [] => [u]
  | row :: tbl' =>
      if String.eqb (user_uid row) (user_uid u)
      then update_user now row u :: tbl'
      else row :: save_user now u tbl'
  end.

(** [Session.flush()].  The constraints the tables declare (primary key,
    [unique] name, [nullable=False]) are the database's and are not
    checked here: a flush the database would refuse with [IntegrityError]
    goes through. *)
Definition flush (now : Z) (s : Session) : Session :=
  let '(roles', n') :=
    insert_roles now (added_roles s) (draws s) (tx_roles s) in
  mkSession (db_users s) (db_roles s)
            (fold_left (fun tbl u => save_user now u tbl)
                       (added_users s) (tx_users s))
            roles' [] [] n' (calls s).

(** [Session.commit()]: flush, then make the transaction's tables the
    stored ones. *)
Definition commit (now : Z) (s : Session) : Session :=
  let s' := flush now s in
  log CallCommit
      (mkSession (tx_users s') (tx_roles s') (tx_users s') (tx_roles s')
                 [] [] (draws s') (calls s')).

(** *** flask_bcrypt *)

(** Whether [hashpw] refuses the password for a NUL byte in it. *)
Definition refuses_nul (password : string) : bool :=
  match bcrypt_nul_bytes with
  | HashesNul => false
  | RefusesNul => has_nul password
  end.

(** [bcrypt.hashpw(password, salt)]: a NUL byte in the password is
    refused or hashed, as the release has it; bcrypt reads at most 72
    bytes of the password, and a longer one is cut or refused, as the
    release has it. *)
Definition hashpw (password salt_ : string) : result bcrypt_hash :=
  if refuses_nul password
  then Raise (ValueError "password may not contain NUL bytes")
  else if (72 <? String.length password)%nat
  then
    match bcrypt_long_passwords with
    | Truncates =>
        Return (mkHash salt_ (bcrypt_digest salt_ (substring 0 72 password)))
    | Rejects =>
        Raise (ValueError "password cannot be longer than 72 bytes")
    end
  else Return (mkHash salt_ (bcrypt_digest salt_ password)).

(** [generate_password_hash(password)], [salt_] being what
    [bcrypt.gensalt()] draws. *)
Definition generate_password_hash (salt_ password : string)
    : result bcrypt_hash :=
  if String.eqb password ""
  then Raise (ValueError "Password must be non-empty.")
  else hashpw password salt_.

(** [check_password_hash(pw_hash, password)]: the candidate is hashed
    under the salt of [pw_hash] and the two hashes are compared. *)
Definition check_password_hash (pw_hash : bcrypt_hash) (password : string)
    : result bool :=
  match hashpw password (salt pw_hash) with
  | Return h => Return (bcrypt_hash_eqb h pw_hash)
  | Raise e => Raise e
  end.

(** *** itsdangerous *)

(** A token string: either not of the shape the serializer writes, or
    signed bytes, a timestamp and a signature. *)
Inductive Token : Type :=
| Unsigned (raw : string)
| Signed (payload : content) (timestamp : Z) (signature : string).

(** [URLSafeTimedSerializer(key).dumps(payload)] at [now]. *)
Definition dumps (key : string) (now : Z) (payload : json) : Token :=
  Signed (Json payload) now (timed_signature key (Json payload) now).

(** [URLSafeTimedSerializer(key).loads(token, max_age=max_age)] at [now]:
    the signature is checked first, then the age, in seconds, and the
    payload is decoded last. *)
Definition loads (key : string) (now : Z) (token : Token) (max_age : Z)
    : result json :=
  match token with
  | Unsigned _ => Raise BadSignature
  | Signed payload timestamp signature =>
      if String.eqb signature (timed_signature key payload timestamp)
      then
        let age := now - timestamp in
        if age >? max_age then Raise SignatureExpired
        else if age <? 0 then Raise SignatureExpired
        else match payload with
             | Json v => Return v
             | NotJson _ => Raise BadPayload
             end
      else Raise BadSignature
  end.

(** *** PyJWT *)

(** A token string: one PyJWT cannot take apart into a header it accepts,
    a JSON object and a signature, or a claim set with the signature that
    comes with it. *)
Inductive Jwt : Type :=
| MalformedJwt (raw : string)
| SignedJwt (claims : dict) (signature : string).

(** [jwt.encode(claims, key, algorithm="HS256")] *)
Definition encode (claims : dict) (key : string) : Jwt :=
  SignedJwt claims (hs256 key claims).

(** The registered claims, [exp] apart, that PyJWT validates. *)
Definition registered_claims : list string :=
  ["iat"; "nbf"; "aud"; "iss"; "sub"; "jti"].

(** [key in claims] *)
Definition carries (claims : dict) (key : string) : bool :=
  match get key claims with
  | Some _ => true
  | None => false
  end.

(** The validation of a claim set whose outcome is the release's. *)
Definition release_verdict (claims : dict) (now : instant) : result dict :=
  match validate_claims claims now with
  | Some e => Raise e
  | None => Return claims
  end.

(** [jwt.decode(token, key, algorithms=["HS256"])] at [now]: the
    signature is checked first, then the claims.  A numeric [exp] is cut
    to an integer and the token refused once that integer is not ahead of
    the clock. *)
Definition decode (token : Jwt) (key : string) (now : instant)
    : result dict :=
  match token with
  | MalformedJwt _ => Raise DecodeError
  | SignedJwt claims signature =>
      if String.eqb signature (hs256 key claims)
      then
        if existsb (carries claims) registered_claims
        then release_verdict claims now
        else
          match get "exp" claims with
          | Some (JNum exp) =>
              if Qle_bool (inject_Z exp) (seconds now)
              then Raise ExpiredSignatureError
              else Return claims
          | Some (JReal exp) =>
              if Qle_bool (inject_Z (python_int exp)) (seconds now)
              then Raise ExpiredSignatureError
              else Return claims
          | Some (JStr _) | Some (JAny _) => release_verdict claims now
          | None => Return claims
          end
      else Raise InvalidSignatureError
  end.

(** *** [User] *)

Definition get_id (self : User) : string := user_uid self.

(** Reading [user.password]. *)
Definition password_getter (self : User) : result string :=
  Raise (AttributeError "user password can't be read").

(** [user.password = password], [salt_] being the salt drawn for it. *)
Definition password_setter (salt_ : string) (self : User)
    (password : string) : result User :=
  match generate_password_hash salt_ password with
  | Return h => Return (set_hashed_password h self)
  | Raise e => Raise e
  end.

Definition verify_password (self : User) (password : string)
    : result bool :=
  check_password_hash (hashed_password self) password.

Definition confirmation_token (cfg : Config) (now : Z) (self : User)
    : Token :=
  dumps (SECRET_KEY cfg) now (JObject [("confirm", JStr (user_uid self))]).

(** [self.confirm_token(token)] at [now].  The value returned comes with
    the object [self] as the call leaves it; when the call raises, no
    assignment to [self] has run. *)
Definition confirm_token (cfg : Config) (now : Z) (self : User)
    (token : Token) (s : Session) : Session * result (User * bool) :=
  db_session_manager true
    (fun db_session =>
       match CONFIRMATION_LINK_TIMEOUT cfg with
       | None =>
           (db_session,
            Raise (TypeError
              "unsupported operand type(s) for *: 'NoneType' and 'int'"))
       | Some confirmation_link_timeout =>
           let timeout := confirmation_link_timeout * 60 * 1000 in
           match loads (SECRET_KEY cfg) now token timeout with
           | Return (JObject data) =>
               if ne_str (get "confirm" data) (user_uid self)
               then (db_session, Return (self, false))
               else
                 let self' := set_confirmed true self in
                 (add_user self' db_session, Return (self', true))
           | Return (JOther _) =>
               (* [data.get]: a value that is no dict has no [get] *)
               (db_session,
                Raise (AttributeError "object has no attribute 'get'"))
           | Raise e =>
               if isinstance_BadSignature e
               then (db_session, Return (self, false))
               else (db_session, Raise e)
           end
       end)
    s.

(** [self.get_reset_token(timeout)] at [now], the reading of [time()]. *)
Definition get_reset_token (cfg : Config) (now : instant) (self : User)
    (timeout : Z) : Jwt :=
  let timeout := timeout * 60 in
  encode [("reset_password", JStr (user_uid self));
          ("exp", JReal (seconds now + inject_Z timeout))]
         (SECRET_KEY cfg).

(** [User.verify_reset_token(token)] at [now]. *)
Definition verify_reset_token (cfg : Config) (now : instant) (token : Jwt)
    : result jval :=
  match decode token (SECRET_KEY cfg) now with
  | Return claims =>
      match get "reset_password" claims with
      | Some user_uid => Return user_uid
      | None => Raise (KeyError "reset_password")
      end
  | Raise e => Raise e
  end.

(** *** [Role] *)

(** The [roles] list of [initialize_role_table]. *)
Definition roles : list NewRole :=
  [ mkNewRole "user" "registered user permission"
      (Permissions.value Permissions.REGISTERED);
    mkNewRole "editor" "user has ability to edit all content and comments"
      (Permissions.union [Permissions.REGISTERED; Permissions.EDITOR]);
    mkNewRole "admin"
      "administrator user with access to all of the application"
      (Permissions.union [Permissions.REGISTERED; Permissions.EDITOR;
                          Permissions.ADMINISTRATOR]) ].

(** [role.description = ...; role.raw_permissions = ...] on a loaded row,
    as the next flush writes it at [now]: no UPDATE when both values are
    the ones the row has. *)
Definition assign_role (now : Z) (r : NewRole) (row : Role) : Role :=
  if String.eqb (description row) (new_description r)
     && Z.eqb (raw_permissions row) (new_raw_permissions r)
  then row
  else mkRole (role_uid row) (name row)
              (new_description r) (new_raw_permissions r)
              (role_active row) (role_created row)
              (default_value Role_updated_onupdate now).

(** The assignments reach the object the query returned: the one row
    named [new_name r] ([one_or_none] raised if there were two). *)
Definition assign_loaded_role (now : Z) (r : NewRole) (s : Session)
    : Session :=
  mkSession (db_users s) (db_roles s) (tx_users s)
            (map (fun row => if String.eqb (name row) (new_name r)
                             then assign_role now r row else row)
                 (tx_roles s))
            (added_users s) (added_roles s) (draws s) (calls s).

(** One turn of the [for r in roles] loop.  The query flushes what is
    pending before it runs (autoflush). *)
Definition upsert_role (now : Z) (r : NewRole) (s : Session)
    : Session * result unit :=
  let s1 := flush now s in
  match one_or_none
          (filter (fun row => String.eqb (name row) (new_name r))
                  (tx_roles s1)) with
  | Raise e => (s1, Raise e)
  | Return None => (add_new_role r s1, Return tt)
  | Return (Some _) => (add_role (assign_loaded_role now r s1), Return tt)
  end.

Fixpoint for_each {A : Type} (f : A -> Session -> Session * result unit)
    (l : list A) (s : Session) : Session * result unit :=
  match l with
  | [] => (s, Return tt)
  | x :: l' =>
      match f x s with
      | (s', Return _) => for_each f l' s'
      | (s', Raise e) => (s', Raise e)
      end
  end.

(** [Role.initialize_role_table()] at [now]. *)
Definition initialize_role_table (now : Z) (s : Session)
    : Session * result unit :=
  db_session_manager true
    (fun db_session =>
       match for_each (upsert_role now) roles db_session with
       | (s', Return _) => (commit now s', Return tt)
       | (s', Raise e) => (s', Raise e)
       end)
    s.

End Models.

(** ** The rest of the module: [Role.permissions] and the two [__repr__] *)

(** Every bit that a member of [Role.Permissions] has. *)
Definition Permissions_all_bits : Z :=
  Permissions.union [Permissions.REGISTERED; Permissions.EDITOR;
                     Permissions.ADMINISTRATOR].

(** [Role.Permissions(value)], the flag object, given by its value.  A
    negative integer within range stands for the flags its complement
    lacks.  An integer out of range raises [ValueError] (the message, which
    quotes the value, is not modelled) or loses the bits no member has, as
    the interpreter's [boundary] has it. *)
Definition Permissions_of (boundary : flag_boundary) (value : Z) : result Z :=
  if (Z.lnot Permissions_all_bits <=? value)
     && (value <=? Permissions_all_bits)
  then Return (if value <? 0 then Permissions_all_bits + 1 + value
               else value)
  else
    match boundary with
    | STRICT => Raise (ValueError "not a valid Permissions")
    | CONFORM => Return (Z.land value Permissions_all_bits)
    end.

(** [member in flag] *)
Definition Permissions_contains (flag : Z) (member : Permissions.t) : bool :=
  Z.eqb (Z.land (Permissions.value member) flag) (Permissions.value member).

(** The property [role.permissions]. *)
Definition permissions (boundary : flag_boundary) (self : Role) : result Z :=
  Permissions_of boundary (raw_permissions self).

Section Repr.

(** How the interpreter's [enum.Flag] treats an integer out of range. *)
Variable boundary : flag_boundary.

(** [str(flag)] for a flag of [Role.Permissions]; Python versions write
    it differently. *)
Variable str_Permissions : Z -> string.





End Repr.

(** * Vocabulary of the properties *)

(** ** Sample data used by the closed examples below *)

Module Sample.
(** Stand-ins for the primitives: the signature of a payload is the key
    it was made with, the digest of a password is the password, the
    [n]-th uuid is a fixed string. *)
Definition signature (key : string) (payload : content) (timestamp : Z)
    : string := key.
Definition hs256 (key : string) (claims : dict) : string := key.
Definition validate_claims (claims : dict) (now : instant) : option exn :=
  None.

(** A clock reading of so many tenths of a second. *)
Definition tenths (n : N) : instant := mkInstant n 10.
Definition bcrypt_digest (salt_ password : string) : string := password.
Definition uuid4_hex (n : nat) : string := "0123456789abcdef".

Definition alice : User :=
  mkUser "a1" "r1" "Alice" "Archer" "alice@example.org"
         (mkHash "salt" "secret") true false 0 0.

Definition empty_session : Session := mkSession [] [] [] [] [] [] 0 [].

Definition cfg (timeout : option Z) : Config := mkConfig "key" timeout.
End Sample.

(** ** Tokens *)

(** Whether the signature of a token is the one the serializer computes
    under [key]. *)
Definition signature_ok (timed_signature : string -> content -> Z -> string)
    (key : string) (token : Token) : bool :=
  match token with
  | Unsigned _ => false
  | Signed payload timestamp signature =>
      String.eqb signature (timed_signature key payload timestamp)
  end.

(** The age of a token at [now], in seconds. *)
Definition token_age (now : Z) (token : Token) : Z :=
  match token with
  | Unsigned _ => 0
  | Signed _ timestamp _ => now - timestamp
  end.

(** Whether [confirm_token] takes the token: the verifier hands back a
    JSON object and its ["confirm"] entry is the user's id. *)
Definition accepts (timed_signature : string -> content -> Z -> string)
    (cfg : Config) (now : Z) (self : User) (token : Token) (minutes : Z)
    : bool :=
  match loads timed_signature (SECRET_KEY cfg) now token
              (minutes * 60 * 1000) with
  | Return (JObject data) =>
      negb (ne_str (get "confirm" data) (user_uid self))
  | Return (JOther _) => false
  | Raise _ => false
  end.

(** The payload of a token, when there is one that is not a JSON object:
    bytes that are no JSON, or a JSON value of another kind. *)
Definition odd_payload (token : Token) : option exn :=
  match token with
  | Signed (NotJson _) _ _ => Some BadPayload
  | Signed (Json (JOther _)) _ _ =>
      Some (AttributeError "object has no attribute 'get'")
  | Signed (Json (JObject _)) _ _ => None
  | Unsigned _ => None
  end.

(** The exception [confirm_token] lets through for a token, if any: the
    one an odd payload causes, once the signature has verified and the
    token is found unexpired for the [max_age] given. *)
Definition escapes (timed_signature : string -> content -> Z -> string)
    (key : string) (now : Z) (token : Token) (max_age : Z) : option exn :=
  if signature_ok timed_signature key token
     && negb ((token_age now token >? max_age) || (token_age now token <? 0))
  then odd_payload token
  else None.

(** ** Passwords *)

(** A password whose bytes the installed bcrypt takes: any password where
    NUL bytes are hashed, one without a NUL byte where they are refused. *)
Definition hashable (nul : nul_byte_policy) (password : string) : Prop :=
  nul = HashesNul \/ has_nul password = false.

(** 72 bytes, and two passwords that share them. *)
Definition seventy_two : string :=
  "aaaaaaaaaaaaaaaaaaaaaaaaaaaaaaaaaaaaaaaaaaaaaaaaaaaaaaaaaaaaaaaaaaaaaaaa".
Definition long_password_1 : string := (seventy_two ++ "1")%string.
Definition long_password_2 : string := (seventy_two ++ "2")%string.

(** ** The role table *)

(** [Role.name == nm], the filter of the query. *)
Definition named (nm : string) (row : Role) : bool :=
  String.eqb (name row) nm.

(** What identifies a stored role: its primary key and its name. *)
Definition role_key (row : Role) : string * string :=
  (role_uid row, name row).

Definition canonical_names : list string := map new_name roles.

(** Whether a row carries one of the three names of [roles]. *)
Definition canonical (row : Role) : bool :=
  existsb (String.eqb (name row)) canonical_names.

(** [a]'s bits are among [b]'s, and [b] has more. *)
Definition strict_subset (a b : Z) : Prop :=
  Z.land a b = a /\ a <> b.

(** Every row named like [r] carries [r]'s description and permissions. *)
Definition settled (r : NewRole) (tbl : list Role) : Prop :=
  forall row, In row tbl -> name row = new_name r ->
              description row = new_description r
              /\ raw_permissions row = new_raw_permissions r.

Definition In_name_dec (nm : string) (tbl : list Role)
    : {In nm (map name tbl)} + {~ In nm (map name tbl)} :=
  in_dec string_dec nm (map name tbl).

Section TableView.
Variable uuid4_hex : nat -> string.
Variable import_time : Z.

(** The role table as a query at [now] finds it: the transaction's rows,
    then the pending inserts. *)
Definition visible_roles (now : Z) (s : Session) : list Role :=
  tx_roles (flush uuid4_hex import_time now s).

(** One turn of the loop, on the table alone: [n] counts the uuids drawn. *)
Definition upsert_rows (now : Z) (r : NewRole) (tbl : list Role) (n : nat)
    : list Role * nat :=
  match filter (named (new_name r)) tbl with
  | [] => (tbl ++ [insert_role uuid4_hex import_time now n r], S n)
  | _ :: _ =>
      (map (fun row => if named (new_name r) row
                       then assign_role import_time now r row else row) tbl,
       n)
  end.

(** The whole loop, on the table alone. *)
Fixpoint seed_rows (now : Z) (rs : list NewRole) (tbl : list Role) (n : nat)
    : list Role * nat :=
  match rs with
  | [] => (tbl, n)
  | r :: rs' =>
      let '(tbl', n') := upsert_rows now r tbl n in seed_rows now rs' tbl' n'
  end.

End TableView.

(** What [initialize_role_table] has no business changing in a stored
    role: its primary key, its name, its [active] flag and its creation
    time. *)
Definition role_frame (row : Role) : string * string * bool * Z :=
  (role_uid row, name row, role_active row, role_created row).

(** The row an INSERT of [r] writes when [uuid4] hands out [uid] and the
    module was imported at [import_time]. *)
Definition fresh_role (uid : string) (import_time : Z) (r : NewRole) : Role :=
  mkRole uid (new_name r) (new_description r) (new_raw_permissions r)
         true import_time import_time.

(** A JWT claim set that carries no registered claim other than [exp]. *)
Definition plain (claims : dict) : Prop :=
  existsb (carries claims) registered_claims = false.

(** A JWT claim set that has not expired at [now]: no [exp] claim, or a
    numeric one that, cut to an integer, lies ahead. *)
Definition unexpired (now : instant) (claims : dict) : Prop :=
  get "exp" claims = None
  \/ (exists exp, get "exp" claims = Some (JNum exp)
                  /\ (seconds now < inject_Z exp)%Q)
  \/ (exists exp, get "exp" claims = Some (JReal exp)
                  /\ (seconds now < inject_Z (python_int exp))%Q).

(** The instant a reset token asked for at [issued] with [timeout] minutes
    carries in its [exp] claim, and the whole second PyJWT cuts it to. *)
Definition expiry (issued : instant) (timeout : Z) : Q :=
  (seconds issued + inject_Z (timeout * 60))%Q.

Definition expiry_second (issued : instant) (timeout : Z) : Z :=
  python_int (expiry issued timeout).

(** * Properties *)

(** ** [db_session_manager] *)

Section SessionScope.
Context {A : Type}.
Variable session_close : bool.
Variable body : Session -> Session * result A.
Variable s : Session.

(** The scope hands back whatever the block produced, value or
    exception. *)
Lemma db_session_manager_result :
  snd (db_session_manager session_close body s) = snd (body s).
Proof.
  unfold db_session_manager. destruct (body s) as [s1 r]. reflexivity.
Qed.

(** The calls the scope itself makes on the session, after the block's
    own. *)
Lemma db_session_manager_calls :
  calls (fst (db_session_manager session_close body s)) =
  calls (fst (body s))
    ++ (match snd (body s) with
        | Raise e => if isinstance_Exception e then [CallRollback] else []
        | Return _ => []
        end)
    ++ (if session_close then [CallClose] else []).
Proof.
  unfold db_session_manager. destruct (body s) as [s1 r]. simpl.
  destruct r as [v | e]; [| destruct (isinstance_Exception e)];
    destruct session_close; simpl;
    rewrite <- ?app_assoc, ?app_nil_r; reflexivity.
Qed.
End SessionScope.

(** C6, as the code has it.  For every block run under
    [db_session_manager]: the block's outcome is handed back unchanged, be
    it a value or an exception; when the block raises an instance of
    [Exception] the session is rolled back (once, before any close); when it
    raises an exception outside [Exception] ([KeyboardInterrupt],
    [SystemExit], [GeneratorExit]) or completes, no rollback is made; and on
    every exit the session is closed once when [session_close] is true and
    not closed when it is false. *)
Theorem db_session_manager_contract :
  forall (A : Type) (session_close : bool)
         (body : Session -> Session * result A) (s : Session),
    let s1 := fst (body s) in
    let out := db_session_manager session_close body s in
    snd out = snd (body s)
    /\ (forall e, snd (body s) = Raise e -> isinstance_Exception e = true ->
          fst out = if session_close then close (rollback s1) else rollback s1)
    /\ (forall e, snd (body s) = Raise e -> isinstance_Exception e = false ->
          fst out = if session_close then close s1 else s1)
    /\ (forall v, snd (body s) = Return v ->
          fst out = if session_close then close s1 else s1)
    /\ (In CallClose (skipn (List.length (calls s1)) (calls (fst out)))
        <-> session_close = true).
Proof.
  intros A sc body s s1 out. subst s1 out.
  split; [apply db_session_manager_result |].
  pose proof (db_session_manager_calls sc body s) as Hcalls.
  unfold db_session_manager in *. destruct (body s) as [s1 r]. simpl in *.
  repeat split.
  - intros e -> He. rewrite He. reflexivity.
  - intros e -> He. rewrite He. reflexivity.
  - intros v ->. reflexivity.
  - rewrite Hcalls, skipn_app, skipn_all, Nat.sub_diag. simpl.
    destruct sc; [reflexivity |].
    intros Hin. exfalso.
    destruct r as [v | e]; [| destruct (isinstance_Exception e)];
      simpl in Hin; intuition discriminate.
  - intros ->. rewrite Hcalls, skipn_app, skipn_all, Nat.sub_diag. simpl.
    apply in_or_app. right. left. reflexivity.
Qed.

(** C6, as stated, fails: a block that stages a user and is interrupted by
    [KeyboardInterrupt] leaves the scope (here with [session_close] false)
    with the staged user still pending and no rollback made. *)
Lemma db_session_manager_no_rollback_on_KeyboardInterrupt :
  let body :=
    fun s => (add_user Sample.alice s, @Raise unit KeyboardInterrupt) in
  let out := db_session_manager false body Sample.empty_session in
  snd out = Raise KeyboardInterrupt
  /\ added_users (fst out) = [Sample.alice]
  /\ calls (fst out) = [CallAdd]
  /\ fst out <> rollback (fst (body Sample.empty_session)).
Proof.
  cbv zeta. repeat split. intro H. discriminate H.
Qed.

(** ** [User.get_id] and the [password] property *)

(** C9.  [get_id] returns the [user_uid] field itself, whatever the other
    fields hold; so two readings agree whenever [user_uid] is the same, also
    across assignments to [confirmed] and [password]. *)
Theorem get_id_is_user_uid :
  forall self : User,
    get_id self = user_uid self
    /\ (forall other : User,
          user_uid other = user_uid self -> get_id other = get_id self)
    /\ (forall b, get_id (set_confirmed b self) = get_id self)
    /\ (forall h, get_id (set_hashed_password h self) = get_id self).
Proof.
  intros self. unfold get_id. repeat split.
  intros other H. exact H.
Qed.

(** C7.  Reading [password] raises [AttributeError] for every user, and
    still does after any assignment to [password] that went through: no
    reading returns a value, raw or hashed. *)
Theorem password_is_write_only :
  forall (self : User),
    password_getter self = Raise (AttributeError "user password can't be read")
    /\ (forall (bcrypt_digest : string -> string -> string)
               (bcrypt_long_passwords : long_password_policy)
               (bcrypt_nul_bytes : nul_byte_policy)
               (salt_ password : string),
          match password_setter bcrypt_digest bcrypt_long_passwords
                                bcrypt_nul_bytes salt_ self password with
          | Return self' =>
              password_getter self' =
              Raise (AttributeError "user password can't be read")
          | Raise _ => True
          end)
    /\ (forall v : string, password_getter self <> Return v).
Proof.
  intros self. unfold password_getter. repeat split.
  - intros d pol nul sa p.
    destruct (password_setter d pol nul sa self p); exact I || reflexivity.
  - intros v H. discriminate H.
Qed.

(** ** [User.confirm_token] *)

Lemma ne_str_false :
  forall (x : option jval) (y : string),
    ne_str x y = false <-> x = Some (JStr y).
Proof.
  intros [[s | n | q | t] |] y; simpl; split; intros H; try discriminate.
  - apply Bool.negb_false_iff, String.eqb_eq in H. subst. reflexivity.
  - inversion H; subst. rewrite String.eqb_refl. reflexivity.
Qed.

(** [loads] raises [BadSignature] exactly for a signature that does not
    verify, [SignatureExpired] exactly for a verified token older than
    [max_age] seconds (or stamped in the future), and [BadPayload] for a
    verified, unexpired token whose bytes are no JSON. *)
Lemma loads_verdict :
  forall timed_signature key now token max_age,
    loads timed_signature key now token max_age =
    if signature_ok timed_signature key token
    then if (token_age now token >? max_age) || (token_age now token <? 0)
         then Raise SignatureExpired
         else match token with
              | Signed (Json v) _ _ => Return v
              | Signed (NotJson _) _ _ => Raise BadPayload
              | Unsigned _ => Raise BadSignature
              end
    else Raise BadSignature.
Proof.
  intros sg key now [raw | payload timestamp signature] max_age; simpl;
    [reflexivity |].
  destruct (String.eqb signature _); [| reflexivity].
  destruct (now - timestamp >? max_age); simpl; [reflexivity |].
  destruct (now - timestamp <? 0); reflexivity.
Qed.

(** With the timeout configured, [confirm_token] ends in one of three
    ways: it lets through the exception of an odd payload, it takes the
    token, or it turns the token down. *)
Lemma confirm_token_cases :
  forall timed_signature cfg now self s minutes token,
    CONFIRMATION_LINK_TIMEOUT cfg = Some minutes ->
    confirm_token timed_signature cfg now self token s =
    match escapes timed_signature (SECRET_KEY cfg) now token
                  (minutes * 60 * 1000) with
    | Some e => (close (rollback s), Raise e)
    | None =>
        if accepts timed_signature cfg now self token minutes
        then (close (add_user (set_confirmed true self) s),
              Return (set_confirmed true self, true))
        else (close s, Return (self, false))
    end.
Proof.
  intros sg cfg now self s minutes token Hcfg.
  unfold escapes, accepts, confirm_token, db_session_manager. rewrite Hcfg.
  rewrite loads_verdict.
  destruct (signature_ok sg (SECRET_KEY cfg) token); [| reflexivity].
  destruct (_ || _); [reflexivity |].
  destruct token as [raw | [[data | text] | bytes] timestamp signature];
    try reflexivity.
  simpl. destruct (ne_str _ _); reflexivity.
Qed.

(** The tokens [confirmation_token] issues carry a JSON object: nothing
    escapes on them. *)
Lemma escapes_issued_token :
  forall timed_signature cfg now issuer issued max_age,
    escapes timed_signature (SECRET_KEY cfg) now
            (confirmation_token timed_signature cfg issued issuer) max_age
    = None.
Proof.
  intros sg cfg now issuer issued max_age.
  unfold escapes, confirmation_token, dumps. simpl.
  destruct (_ && _); reflexivity.
Qed.

(** C10.  Without a [CONFIRMATION_LINK_TIMEOUT] in the configuration,
    [confirm_token] raises [TypeError] for every token: [config.get] yields
    [None] and [None * 60] is evaluated before the token is looked at.  The
    scope rolls back and closes on the way out. *)
Theorem confirm_token_unconfigured_raises_TypeError :
  forall timed_signature cfg now self s,
    CONFIRMATION_LINK_TIMEOUT cfg = None ->
    forall token : Token,
    exists msg : string,
      confirm_token timed_signature cfg now self token s =
      (close (rollback s), Raise (TypeError msg)).
Proof.
  intros sg cfg now self s Hcfg token.
  unfold confirm_token, db_session_manager. rewrite Hcfg. simpl.
  eexists. reflexivity.
Qed.

(** C10 at a sample: an unconfigured application, a token just issued. *)
Lemma confirm_token_unconfigured_sample :
  exists msg : string,
    confirm_token Sample.signature (Sample.cfg None) 10 Sample.alice
      (confirmation_token Sample.signature (Sample.cfg None) 10 Sample.alice)
      Sample.empty_session =
    (close (rollback Sample.empty_session), Raise (TypeError msg)).
Proof.
  apply (confirm_token_unconfigured_raises_TypeError
           Sample.signature (Sample.cfg None) 10 Sample.alice
           Sample.empty_session).
  reflexivity.
Defined.

(** C3, as the code has it.  With [CONFIRMATION_LINK_TIMEOUT] configured,
    [confirm_token] raises on one kind of token only: one whose signature
    verifies, that the verifier finds unexpired, and whose payload is not a
    JSON object -- [data.get] then raises [AttributeError], or [loads]
    raises [BadPayload] when the payload is no JSON at all -- and the scope
    rolls back and closes.  On every other token it raises nothing.  It
    returns false, leaving [self] as it was, whenever the signature does
    not verify, the verifier finds the token expired, or the payload is an
    object whose ["confirm"] entry is not [self.user_uid].  Exactly when
    the verifier hands back an object whose ["confirm"] entry is
    [self.user_uid], it sets [confirmed], adds [self] to the session and
    returns true.  In no case is anything committed: the stored tables are
    untouched and the scope makes no [commit] call. *)
Theorem confirm_token_contract :
  forall timed_signature cfg now self s minutes token,
    CONFIRMATION_LINK_TIMEOUT cfg = Some minutes ->
    let verdict := loads timed_signature (SECRET_KEY cfg) now token
                         (minutes * 60 * 1000) in
    let out := confirm_token timed_signature cfg now self token s in
    ((exists e, snd out = Raise e)
     <-> (exists text, verdict = Return (JOther text))
         \/ verdict = Raise BadPayload)
    /\ (forall text, verdict = Return (JOther text) ->
          exists msg,
            out = (close (rollback s), Raise (AttributeError msg)))
    /\ (verdict = Raise BadPayload ->
        out = (close (rollback s), Raise BadPayload))
    /\ ((forall text, verdict <> Return (JOther text)) ->
        verdict <> Raise BadPayload ->
        exists b : bool,
          out = (if b then close (add_user (set_confirmed true self) s)
                 else close s,
                 Return (if b then set_confirmed true self else self, b))
          /\ (b = true <->
              exists data,
                verdict = Return (JObject data)
                /\ get "confirm" data = Some (JStr (user_uid self)))
          /\ calls (fst out) =
             calls s ++ (if b then [CallAdd] else []) ++ [CallClose])
    /\ (signature_ok timed_signature (SECRET_KEY cfg) token = false ->
        out = (close s, Return (self, false)))
    /\ (verdict = Raise SignatureExpired ->
        out = (close s, Return (self, false)))
    /\ (forall data, verdict = Return (JObject data) ->
          get "confirm" data <> Some (JStr (user_uid self)) ->
          out = (close s, Return (self, false)))
    /\ db_users (fst out) = db_users s
    /\ db_roles (fst out) = db_roles s.
Proof.
  intros sg cfg now self s minutes token Hcfg verdict out.
  assert (Hout :
    out =
    match verdict with
    | Return (JObject data) =>
        if ne_str (get "confirm" data) (user_uid self)
        then (close s, Return (self, false))
        else (close (add_user (set_confirmed true self) s),
              Return (set_confirmed true self, true))
    | Return (JOther _) =>
        (close (rollback s),
         Raise (AttributeError "object has no attribute 'get'"))
    | Raise e =>
        if isinstance_BadSignature e
        then (close s, Return (self, false))
        else (if isinstance_Exception e then close (rollback s) else close s,
              Raise e)
    end).
  { unfold out, verdict, confirm_token, db_session_manager. rewrite Hcfg.
    destruct (loads sg (SECRET_KEY cfg) now token (minutes * 60 * 1000))
      as [[data | text] | e].
    - destruct (ne_str _ _); reflexivity.
    - reflexivity.
    - destruct (isinstance_BadSignature e); [reflexivity |].
      destruct (isinstance_Exception e); reflexivity. }
  assert (Hverdict :
    verdict = Raise BadSignature \/ verdict = Raise SignatureExpired
    \/ verdict = Raise BadPayload \/ exists v, verdict = Return v).
  { unfold verdict. rewrite loads_verdict.
    destruct (signature_ok sg (SECRET_KEY cfg) token); [| tauto].
    destruct (_ || _); [tauto |].
    destruct token as [raw | [v | bytes] timestamp signature];
      [tauto | right; right; right; exists v; reflexivity | tauto]. }
  assert (Hsig : signature_ok sg (SECRET_KEY cfg) token = false ->
                 verdict = Raise BadSignature).
  { intros Hs. unfold verdict. rewrite loads_verdict, Hs. reflexivity. }
  split; [| split; [| split; [| split; [| split; [| split; [| split;
    [| split]]]]]]].
  - rewrite Hout. split.
    + intros (e & He).
      destruct Hverdict as [H | [H | [H | ([data | text] & H)]]];
        rewrite H in He |- *; simpl in He;
        try discriminate; try tauto.
      * destruct (ne_str _ _); discriminate.
      * left. exists text. reflexivity.
    + intros [(text & H) | H]; rewrite H; simpl; eexists; reflexivity.
  - intros text H. rewrite Hout, H. eexists. reflexivity.
  - intros H. rewrite Hout, H. reflexivity.
  - intros Hobj Hpay. rewrite Hout.
    destruct Hverdict as [H | [H | [H | ([data | text] & H)]]];
      try contradiction; try (exfalso; apply (Hobj text); exact H);
      rewrite H; simpl.
    + exists false. split; [reflexivity | split].
      * split; [discriminate |]. intros (d & Hd & _). discriminate Hd.
      * reflexivity.
    + exists false. split; [reflexivity | split].
      * split; [discriminate |]. intros (d & Hd & _). discriminate Hd.
      * reflexivity.
    + destruct (ne_str (get "confirm" data) (user_uid self)) eqn:Hne.
      * exists false. split; [reflexivity | split].
        -- split; [discriminate |].
           intros (d & Hd & Hget). inversion Hd; subst d.
           apply ne_str_false in Hget. congruence.
        -- reflexivity.
      * exists true. split; [reflexivity | split].
        -- split; [| reflexivity].
           intros _. exists data. split; [reflexivity |].
           apply ne_str_false. exact Hne.
        -- simpl. rewrite <- !app_assoc. reflexivity.
  - intros Hs. rewrite Hout, (Hsig Hs). reflexivity.
  - intros He. rewrite Hout, He. reflexivity.
  - intros data Hd Hget. rewrite Hout, Hd.
    destruct (ne_str (get "confirm" data) (user_uid self)) eqn:Hne;
      [reflexivity |].
    apply ne_str_false in Hne. contradiction.
  - rewrite Hout.
    destruct Hverdict as [H | [H | [H | ([data | text] & H)]]];
      rewrite H; simpl; try reflexivity.
    destruct (ne_str _ _); reflexivity.
  - rewrite Hout.
    destruct Hverdict as [H | [H | [H | ([data | text] & H)]]];
      rewrite H; simpl; try reflexivity.
    destruct (ne_str _ _); reflexivity.
Qed.

(** C3 at a sample: a fresh token of the user's own is taken. *)
Lemma confirm_token_contract_sample :
  let out := confirm_token Sample.signature (Sample.cfg (Some 5)) 20
               Sample.alice
               (confirmation_token Sample.signature (Sample.cfg (Some 5)) 10
                                   Sample.alice)
               Sample.empty_session in
  snd out = Return (set_confirmed true Sample.alice, true)
  /\ db_users (fst out) = [].
Proof.
  pose proof (confirm_token_contract Sample.signature (Sample.cfg (Some 5)) 20
                Sample.alice Sample.empty_session 5
                (confirmation_token Sample.signature (Sample.cfg (Some 5)) 10
                                    Sample.alice) eq_refl) as H.
  cbv zeta in H. destruct H as (_ & _ & _ & _ & _ & _ & _ & Hu & _).
  split; [reflexivity | exact Hu].
Defined.

(** C3, as stated, fails twice.  With no [CONFIRMATION_LINK_TIMEOUT]
    configured the call raises [TypeError] instead of returning false,
    here on a string that is no token at all.  And with the timeout
    configured, a token that carries the application's signature over a
    JSON string instead of an object makes [data.get] raise
    [AttributeError], which the handler does not catch. *)
Lemma confirm_token_can_raise :
  confirm_token Sample.signature (Sample.cfg None) 0 Sample.alice
                (Unsigned "not-a-token") Sample.empty_session =
  (close (rollback Sample.empty_session),
   Raise (TypeError
            "unsupported operand type(s) for *: 'NoneType' and 'int'"))
  /\ confirm_token Sample.signature (Sample.cfg (Some 5)) 10 Sample.alice
       (dumps Sample.signature "key" 10 (JOther "a1"))
       Sample.empty_session =
     (close (rollback Sample.empty_session),
      Raise (AttributeError "object has no attribute 'get'")).
Proof. split; reflexivity. Qed.

(** C1 at its failing input.  The timeout is one minute; the user's own
    token, issued at second 0, is presented at second 120, two minutes old.
    [confirm_token] hands the verifier a [max_age] of 60000 and the verifier
    counts seconds, so the token is taken: the call returns true and sets
    [confirmed]. *)
Theorem confirm_token_takes_token_older_than_timeout :
  forall timed_signature key self s,
    let cfg := mkConfig key (Some 1) in
    confirm_token timed_signature cfg 120 self
                  (confirmation_token timed_signature cfg 0 self) s =
    (close (add_user (set_confirmed true self) s),
     Return (set_confirmed true self, true)).
Proof.
  intros sg key self s cfg.
  rewrite (confirm_token_cases sg cfg 120 self s 1) by reflexivity.
  rewrite escapes_issued_token.
  unfold accepts, confirmation_token, dumps, loads. cbn.
  rewrite String.eqb_refl. cbn. rewrite String.eqb_refl. reflexivity.
Qed.

(** What does hold of expiry: the user's own token is turned down exactly
    once it is more than [minutes * 60 * 1000] seconds old. *)
Lemma confirm_token_expiry_threshold :
  forall timed_signature cfg self s minutes issued now,
    CONFIRMATION_LINK_TIMEOUT cfg = Some minutes ->
    issued <= now ->
    snd (confirm_token timed_signature cfg now self
           (confirmation_token timed_signature cfg issued self) s) =
    if now - issued >? minutes * 60 * 1000
    then Return (self, false)
    else Return (set_confirmed true self, true).
Proof.
  intros sg cfg self s minutes issued now Hcfg Hle.
  rewrite (confirm_token_cases sg cfg now self s minutes) by exact Hcfg.
  rewrite escapes_issued_token.
  unfold accepts, confirmation_token, dumps, loads. simpl.
  rewrite !String.eqb_refl.
  destruct (now - issued >? minutes * 60 * 1000); [reflexivity |].
  replace (now - issued <? 0) with false by (symmetry; apply Z.ltb_ge; lia).
  cbn. rewrite String.eqb_refl. reflexivity.
Qed.

(** ** Password-reset tokens *)

(** [int] drops less than one. *)
Lemma python_int_floor_or_ceiling :
  forall x : Q,
    python_int x = if (0 <=? Qnum x) then Qfloor x else Qceiling x.
Proof.
  intros [n d]. unfold python_int, Qceiling, Qfloor, Qopp. simpl.
  destruct (Z.leb_spec 0 n) as [Hn | Hn].
  - apply Z.quot_div_nonneg; lia.
  - rewrite <- (Z.opp_involutive n) at 1.
    rewrite Z.quot_opp_l by lia. f_equal.
    apply Z.quot_div_nonneg; lia.
Qed.

Lemma python_int_above :
  forall x : Q, (x - 1 < inject_Z (python_int x))%Q.
Proof.
  intros x. rewrite python_int_floor_or_ceiling.
  destruct (0 <=? Qnum x).
  - pose proof (Qlt_floor x) as H. rewrite inject_Z_plus in H.
    change (inject_Z 1) with 1%Q in H. lra.
  - pose proof (Qle_ceiling x) as H. lra.
Qed.

Lemma python_int_below :
  forall x : Q, (0 <= x -> inject_Z (python_int x) <= x)%Q.
Proof.
  intros x Hx. rewrite python_int_floor_or_ceiling.
  replace (0 <=? Qnum x) with true.
  - apply Qfloor_le.
  - symmetry. apply Z.leb_le. destruct x as [n d].
    unfold Qle in Hx. simpl in *. lia.
Qed.

Lemma python_int_negative :
  forall x : Q, (x < 0 -> inject_Z (python_int x) <= 0)%Q.
Proof.
  intros x Hx. rewrite python_int_floor_or_ceiling.
  destruct (0 <=? Qnum x).
  - pose proof (Qfloor_le x). lra.
  - pose proof (Qceiling_resp_le x 0 (Qlt_le_weak _ _ Hx)) as H.
    change (Qceiling 0) with 0 in H.
    change 0%Q with (inject_Z 0). rewrite <- Zle_Qle. exact H.
Qed.

Lemma seconds_nonneg : forall t : instant, (0 <= seconds t)%Q.
Proof.
  intros [n d]. unfold seconds, Qle. simpl. lia.
Qed.

(** A token [get_reset_token] issued verifies while the clock is before
    the whole second its [exp] is cut to, and not after. *)
Lemma verify_issued_reset_token :
  forall (hs256 : string -> dict -> string)
         (validate_claims : dict -> instant -> option exn)
         (cfg : Config) (self : User) (timeout : Z) (issued now : instant),
    verify_reset_token hs256 validate_claims cfg now
                       (get_reset_token hs256 cfg issued self timeout) =
    if Qle_bool (inject_Z (expiry_second issued timeout)) (seconds now)
    then Raise ExpiredSignatureError
    else Return (JStr (user_uid self)).
Proof.
  intros hs vc cfg self timeout issued now.
  unfold verify_reset_token, get_reset_token, encode, decode.
  rewrite String.eqb_refl. cbn.
  unfold expiry_second, expiry.
  destruct (Qle_bool _ _); reflexivity.
Qed.

(** C4, as the code has it.  The [exp] claim of a reset token is the
    instant [timeout * 60] seconds after it was issued, and PyJWT cuts it
    to a whole second before comparing.  The token verifies to the user's
    [user_uid] as long as the clock is before that whole second -- so
    whenever at least one second of the [timeout] minutes is left -- and
    raises [ExpiredSignatureError] from that second on -- so whenever
    [timeout] minutes have elapsed.  In the last fraction of a second of
    the window either can happen.  A token whose signature is not the one
    HS256 gives under the application's key raises
    [InvalidSignatureError], and a string that is no token raises too.  No
    failing path returns a value. *)
Theorem reset_token_window :
  forall (hs256 : string -> dict -> string)
         (validate_claims : dict -> instant -> option exn)
         (cfg : Config) (self : User) (timeout : Z) (issued now : instant),
    let token := get_reset_token hs256 cfg issued self timeout in
    let verify := verify_reset_token hs256 validate_claims cfg now in
    ((seconds now < inject_Z (expiry_second issued timeout))%Q ->
     verify token = Return (JStr (user_uid self)))
    /\ ((inject_Z (expiry_second issued timeout) <= seconds now)%Q ->
        verify token = Raise ExpiredSignatureError)
    /\ ((seconds now - seconds issued <= inject_Z (timeout * 60) - 1)%Q ->
        verify token = Return (JStr (user_uid self)))
    /\ ((inject_Z (timeout * 60) <= seconds now - seconds issued)%Q ->
        verify token = Raise ExpiredSignatureError)
    /\ (forall claims signature,
          signature <> hs256 (SECRET_KEY cfg) claims ->
          verify (SignedJwt claims signature) = Raise InvalidSignatureError)
    /\ (forall raw, exists e, verify (MalformedJwt raw) = Raise e).
Proof.
  intros hs vc cfg self timeout issued now token verify.
  subst token verify.
  pose proof (verify_issued_reset_token hs vc cfg self timeout issued now)
    as Hv.
  pose proof (python_int_above (expiry issued timeout)) as Habove.
  fold (expiry_second issued timeout) in Habove.
  pose proof (seconds_nonneg now) as Hnow.
  assert (Hraise :
    (inject_Z (expiry_second issued timeout) <= seconds now)%Q ->
    verify_reset_token hs vc cfg now
                       (get_reset_token hs cfg issued self timeout)
    = Raise ExpiredSignatureError).
  { intros H. rewrite Hv. apply Qle_bool_iff in H. rewrite H. reflexivity. }
  assert (Hreturn :
    (seconds now < inject_Z (expiry_second issued timeout))%Q ->
    verify_reset_token hs vc cfg now
                       (get_reset_token hs cfg issued self timeout)
    = Return (JStr (user_uid self))).
  { intros H. rewrite Hv.
    destruct (Qle_bool _ _) eqn:E; [| reflexivity].
    apply Qle_bool_iff in E. exfalso. apply (Qlt_not_le _ _ H). exact E. }
  split; [exact Hreturn | split; [exact Hraise | split; [| split; [| split]]]].
  - intros H. apply Hreturn. unfold expiry in Habove. lra.
  - intros H. apply Hraise.
    destruct (Qlt_le_dec (expiry issued timeout) 0) as [Hneg | Hpos].
    + pose proof (python_int_negative _ Hneg) as Hle.
      fold (expiry_second issued timeout) in Hle. lra.
    + pose proof (python_int_below _ Hpos) as Hle.
      fold (expiry_second issued timeout) in Hle.
      unfold expiry in Hle. lra.
  - intros claims signature Hne.
    unfold verify_reset_token, decode.
    destruct (String.eqb signature (hs (SECRET_KEY cfg) claims)) eqn:E;
      [| reflexivity].
    apply String.eqb_eq in E. contradiction.
  - intros raw. eexists. reflexivity.
Qed.

(** C4 at a sample: a 30-minute token issued at second 1000, read 29
    minutes after and again one hour after. *)
Lemma reset_token_window_sample :
  let token := get_reset_token Sample.hs256 (Sample.cfg None)
                               (Sample.tenths 10000) Sample.alice 30 in
  verify_reset_token Sample.hs256 Sample.validate_claims (Sample.cfg None)
                     (Sample.tenths 27400) token =
  Return (JStr "a1")
  /\ verify_reset_token Sample.hs256 Sample.validate_claims (Sample.cfg None)
                        (Sample.tenths 46000) token =
     Raise ExpiredSignatureError.
Proof.
  cbv zeta. split.
  - apply (reset_token_window Sample.hs256 Sample.validate_claims
             (Sample.cfg None) Sample.alice 30 (Sample.tenths 10000)
             (Sample.tenths 27400)).
    vm_compute. first [reflexivity | discriminate].
  - apply (reset_token_window Sample.hs256 Sample.validate_claims
             (Sample.cfg None) Sample.alice 30 (Sample.tenths 10000)
             (Sample.tenths 46000)).
    vm_compute. first [reflexivity | discriminate].
Defined.

(** C4, as stated, fails in the last fraction of a second: a 1-minute
    token issued at second 0.9 carries the expiry 60.9, which PyJWT cuts to
    60; at second 60.5, when 59.6 seconds have elapsed, verification
    raises. *)
Lemma reset_token_expires_within_the_window :
  (seconds (Sample.tenths 605) - seconds (Sample.tenths 9)
   < inject_Z (1 * 60))%Q
  /\ verify_reset_token Sample.hs256 Sample.validate_claims (Sample.cfg None)
       (Sample.tenths 605)
       (get_reset_token Sample.hs256 (Sample.cfg None) (Sample.tenths 9)
                        Sample.alice 1) =
     Raise ExpiredSignatureError.
Proof. split; reflexivity. Qed.

(** ** Passwords *)

Lemma substring_short :
  forall (x : string) (n : nat),
    (String.length x <= n)%nat -> substring 0 n x = x.
Proof.
  intros x. induction x as [| c x IH]; intros n Hn.
  - destruct n; reflexivity.
  - destruct n as [| n]; simpl in *; [lia |].
    rewrite IH by lia. reflexivity.
Qed.

Lemma refuses_nul_hashable :
  forall (nul : nul_byte_policy) (password : string),
    hashable nul password -> refuses_nul nul password = false.
Proof.
  intros nul password [-> | H]; [reflexivity |].
  unfold refuses_nul. rewrite H. destruct nul; reflexivity.
Qed.

(** [hashpw], where every release agrees and where each goes its way. *)
Lemma hashpw_outcomes :
  forall (bcrypt_digest : string -> string -> string)
         (policy : long_password_policy) (nul : nul_byte_policy)
         (password salt_ : string),
    (hashable nul password ->
     (String.length password <= 72)%nat ->
     hashpw bcrypt_digest policy nul password salt_ =
     Return (mkHash salt_ (bcrypt_digest salt_ password)))
    /\ (hashable nul password ->
        policy = Truncates ->
        hashpw bcrypt_digest policy nul password salt_ =
        Return (mkHash salt_
                       (bcrypt_digest salt_ (substring 0 72 password))))
    /\ (policy = Rejects -> (72 < String.length password)%nat ->
        exists msg,
          hashpw bcrypt_digest policy nul password salt_ =
          Raise (ValueError msg))
    /\ (nul = RefusesNul -> has_nul password = true ->
        exists msg,
          hashpw bcrypt_digest policy nul password salt_ =
          Raise (ValueError msg)).
Proof.
  intros dg policy nul password sa. unfold hashpw.
  split; [| split; [| split]].
  - intros Hok Hshort. rewrite (refuses_nul_hashable _ _ Hok).
    replace (72 <? String.length password)%nat with false
      by (symmetry; apply Nat.ltb_ge; exact Hshort).
    reflexivity.
  - intros Hok ->. rewrite (refuses_nul_hashable _ _ Hok).
    destruct (Nat.ltb_spec 72 (String.length password)) as [Hlong | Hshort];
      [reflexivity |].
    rewrite substring_short by exact Hshort. reflexivity.
  - intros -> Hlong. destruct (refuses_nul nul password);
      [eexists; reflexivity |].
    replace (72 <? String.length password)%nat with true
      by (symmetry; apply Nat.ltb_lt; exact Hlong).
    eexists. reflexivity.
  - intros -> Hnul. unfold refuses_nul. rewrite Hnul.
    eexists. reflexivity.
Qed.

(** C2, as the code has it.  Up to 72 bytes the releases of bcrypt agree
    on every password whose bytes they take (a NUL byte is refused by the
    oldest): for such a non-empty password [p], assigning [p] to
    [password] goes through and changes nothing but [hashed_password];
    afterwards [verify_password p] returns true, and for every such
    candidate [q] [verify_password q] returns a boolean, true exactly when
    [q] has, under the stored salt, the digest stored for [p] -- so false
    for every [q] whose digest differs.  Beyond 72 bytes the release
    decides: one that cuts the password compares the first 72 bytes only,
    one that refuses it raises [ValueError] from the assignment and from
    the verification.  So does, on a NUL byte, a release that refuses
    those.  Assigning the empty string raises [ValueError].
    [verify_password] takes and gives back no state. *)
Theorem password_then_verify :
  forall (bcrypt_digest : string -> string -> string) (salt_ : string)
         (self : User),
    (forall (policy : long_password_policy) (nul : nul_byte_policy)
            (p q : string),
        p <> "" ->
        (String.length p <= 72)%nat ->
        hashable nul p ->
        exists self' : User,
          password_setter bcrypt_digest policy nul salt_ self p
          = Return self'
          /\ self' = set_hashed_password (hashed_password self') self
          /\ verify_password bcrypt_digest policy nul self' p = Return true
          /\ ((String.length q <= 72)%nat ->
              hashable nul q ->
              verify_password bcrypt_digest policy nul self' q =
              Return (String.eqb (bcrypt_digest salt_ q)
                                 (bcrypt_digest salt_ p)))
          /\ ((String.length q <= 72)%nat ->
              hashable nul q ->
              bcrypt_digest salt_ q <> bcrypt_digest salt_ p ->
              verify_password bcrypt_digest policy nul self' q
              = Return false))
    /\ (forall (nul : nul_byte_policy) (p q : string),
          p <> "" ->
          hashable nul p ->
          hashable nul q ->
          exists self' : User,
            password_setter bcrypt_digest Truncates nul salt_ self p
            = Return self'
            /\ verify_password bcrypt_digest Truncates nul self' q =
               Return (String.eqb
                         (bcrypt_digest salt_ (substring 0 72 q))
                         (bcrypt_digest salt_ (substring 0 72 p))))
    /\ (forall (nul : nul_byte_policy) (p : string),
          (72 < String.length p)%nat ->
          (exists msg,
              password_setter bcrypt_digest Rejects nul salt_ self p =
              Raise (ValueError msg))
          /\ (exists msg,
                 verify_password bcrypt_digest Rejects nul self p =
                 Raise (ValueError msg)))
    /\ (forall (policy : long_password_policy) (p : string),
          has_nul p = true ->
          (exists msg,
              password_setter bcrypt_digest policy RefusesNul salt_ self p =
              Raise (ValueError msg))
          /\ (exists msg,
                 verify_password bcrypt_digest policy RefusesNul self p =
                 Raise (ValueError msg)))
    /\ (forall (policy : long_password_policy) (nul : nul_byte_policy),
          password_setter bcrypt_digest policy nul salt_ self "" =
          Raise (ValueError "Password must be non-empty.")).
Proof.
  intros dg sa self. split; [| split; [| split; [| split]]].
  - intros policy nul p q Hp Hlen Hok.
    unfold password_setter, generate_password_hash.
    destruct (String.eqb p "") eqn:E;
      [apply String.eqb_eq in E; contradiction |].
    destruct (hashpw_outcomes dg policy nul p sa) as (Hshort & _).
    rewrite (Hshort Hok Hlen).
    eexists. split; [reflexivity | split; [reflexivity |]].
    unfold verify_password, check_password_hash. cbn.
    rewrite (Hshort Hok Hlen). unfold bcrypt_hash_eqb. cbn.
    rewrite !String.eqb_refl. split; [reflexivity | split].
    + intros Hq Hqok.
      destruct (hashpw_outcomes dg policy nul q sa) as (Hq' & _).
      rewrite (Hq' Hqok Hq). cbn. rewrite String.eqb_refl. reflexivity.
    + intros Hq Hqok Hne.
      destruct (hashpw_outcomes dg policy nul q sa) as (Hq' & _).
      rewrite (Hq' Hqok Hq). cbn. rewrite String.eqb_refl.
      apply String.eqb_neq in Hne. rewrite Hne. reflexivity.
  - intros nul p q Hp Hok Hqok.
    unfold password_setter, generate_password_hash.
    destruct (String.eqb p "") eqn:E;
      [apply String.eqb_eq in E; contradiction |].
    destruct (hashpw_outcomes dg Truncates nul p sa) as (_ & Hcut & _).
    rewrite (Hcut Hok eq_refl).
    eexists. split; [reflexivity |].
    unfold verify_password, check_password_hash. cbn.
    destruct (hashpw_outcomes dg Truncates nul q sa) as (_ & Hq & _).
    rewrite (Hq Hqok eq_refl). unfold bcrypt_hash_eqb. cbn.
    rewrite String.eqb_refl. reflexivity.
  - intros nul p Hlong. split.
    + unfold password_setter, generate_password_hash.
      destruct (String.eqb p "") eqn:E.
      * apply String.eqb_eq in E. subst p. simpl in Hlong. lia.
      * destruct (hashpw_outcomes dg Rejects nul p sa) as (_ & _ & Hrej & _).
        destruct (Hrej eq_refl Hlong) as (msg & Hm). rewrite Hm.
        exists msg. reflexivity.
    + unfold verify_password, check_password_hash.
      destruct (hashpw_outcomes dg Rejects nul p
                                (salt (hashed_password self)))
        as (_ & _ & Hrej & _).
      destruct (Hrej eq_refl Hlong) as (msg & Hm). rewrite Hm.
      exists msg. reflexivity.
  - intros policy p Hnul. split.
    + unfold password_setter, generate_password_hash.
      destruct (String.eqb p "") eqn:E.
      * apply String.eqb_eq in E. subst p. discriminate Hnul.
      * destruct (hashpw_outcomes dg policy RefusesNul p sa)
          as (_ & _ & _ & Hrej).
        destruct (Hrej eq_refl Hnul) as (msg & Hm). rewrite Hm.
        exists msg. reflexivity.
    + unfold verify_password, check_password_hash.
      destruct (hashpw_outcomes dg policy RefusesNul p
                                (salt (hashed_password self)))
        as (_ & _ & _ & Hrej).
      destruct (Hrej eq_refl Hnul) as (msg & Hm). rewrite Hm.
      exists msg. reflexivity.
  - intros policy nul. reflexivity.
Qed.

(** C2 at a sample: the digest stand-in is the identity, the most
    discriminating digest there is. *)
Lemma password_then_verify_sample :
  exists self' : User,
    password_setter Sample.bcrypt_digest Rejects HashesNul "salt"
                    Sample.alice "tr0ub4dor"
    = Return self'
    /\ verify_password Sample.bcrypt_digest Rejects HashesNul self'
                       "tr0ub4dor"
       = Return true
    /\ verify_password Sample.bcrypt_digest Rejects HashesNul self'
                       "Tr0ub4dor"
       = Return false.
Proof.
  destruct (password_then_verify Sample.bcrypt_digest "salt" Sample.alice)
    as (Hshort & _).
  destruct (Hshort Rejects HashesNul "tr0ub4dor" "Tr0ub4dor")
    as (self' & Hset & _ & Hp & _ & Hq);
    [discriminate | simpl; lia | left; reflexivity |].
  exists self'. split; [exact Hset | split; [exact Hp |]].
  apply Hq; [simpl; lia | left; reflexivity | discriminate].
Defined.

(** C2, as stated, fails on every release of bcrypt.  Assigning the empty
    password raises [ValueError], so no verification follows it.  And of
    two different passwords of 73 bytes that share their first 72, either
    the second verifies against the first (a release that cuts), whatever
    the digest and the salt, or the assignment of the first and the
    verification of the second raise [ValueError] (a release that
    refuses) -- an exception on mismatch. *)
Lemma verify_password_takes_a_different_password :
  (forall (bcrypt_digest : string -> string -> string)
          (policy : long_password_policy) (nul : nul_byte_policy)
          (salt_ : string) (self : User),
      password_setter bcrypt_digest policy nul salt_ self ""
      = Raise (ValueError "Password must be non-empty."))
  /\ long_password_1 <> long_password_2
  /\ (forall (bcrypt_digest : string -> string -> string)
             (nul : nul_byte_policy) (salt_ : string) (self : User),
        exists self' : User,
          password_setter bcrypt_digest Truncates nul salt_ self
                          long_password_1
          = Return self'
          /\ verify_password bcrypt_digest Truncates nul self'
                             long_password_2
             = Return true)
  /\ (forall (bcrypt_digest : string -> string -> string)
             (nul : nul_byte_policy) (salt_ : string) (self : User),
        (exists msg,
            password_setter bcrypt_digest Rejects nul salt_ self
                            long_password_1
            = Raise (ValueError msg))
        /\ (exists msg,
               verify_password bcrypt_digest Rejects nul self
                               long_password_2
               = Raise (ValueError msg))).
Proof.
  split; [| split; [| split]].
  - intros dg policy nul sa self. reflexivity.
  - discriminate.
  - intros dg nul sa self. eexists. split; [destruct nul; reflexivity |].
    unfold verify_password, check_password_hash, hashpw, bcrypt_hash_eqb.
    destruct nul; cbn; rewrite !String.eqb_refl; reflexivity.
  - intros dg nul sa self. split; destruct nul; eexists; reflexivity.
Qed.

(** ** The [updated] columns *)

(** C8 on the code.  Whenever a mutation of a [User] or of a [Role] row is
    written, at whatever time [now], [updated] receives the clock reading of
    the module's import: [onupdate] was given the value of
    [datetime.now(...)], not the function. *)
Theorem updated_is_the_import_time :
  forall (import_time now : Z),
    (forall row u : User,
        User_eqb row u = false ->
        user_updated u = user_updated row ->
        user_updated (update_user import_time now row u) = import_time)
    /\ (forall (r : NewRole) (row : Role),
          String.eqb (description row) (new_description r)
          && Z.eqb (raw_permissions row) (new_raw_permissions r) = false ->
          role_updated (assign_role import_time now r row) = import_time).
Proof.
  intros imp now. split.
  - intros row u Hne Hupd. unfold update_user. rewrite Hne.
    rewrite Hupd, Z.eqb_refl. reflexivity.
  - intros r row Hne. unfold assign_role. rewrite Hne. reflexivity.
Qed.

(** C8 at a sample.  The module was imported at second 1000.  At second
    5000 Alice's stored row is confirmed and the change committed: the row
    now reads [confirmed = true] and [updated = 1000]. *)
Lemma updated_is_the_import_time_sample :
  let stored := set_user_updated 1000 Sample.alice in
  let s := mkSession [stored] [] [stored] [] [] [] 0 [] in
  db_users (commit Sample.uuid4_hex 1000 5000
              (add_user (set_confirmed true stored) s)) =
  [set_user_updated 1000 (set_confirmed true stored)].
Proof. reflexivity. Qed.

(** ** [Role.initialize_role_table] *)

Section RoleTable.
Variable uuid4_hex : nat -> string.
Variable import_time : Z.

Local Abbreviation flushed := (flush uuid4_hex import_time).
Local Abbreviation inserted := (insert_role uuid4_hex import_time).
Local Abbreviation upsert_one := (upsert_role uuid4_hex import_time).
Local Abbreviation initialize := (initialize_role_table uuid4_hex import_time).
Local Abbreviation visible := (visible_roles uuid4_hex import_time).
Local Abbreviation upsert := (upsert_rows uuid4_hex import_time).
Local Abbreviation seed := (seed_rows uuid4_hex import_time).

Lemma filter_named_nil :
  forall (nm : string) (tbl : list Role),
    filter (named nm) tbl = [] <-> ~ In nm (map name tbl).
Proof.
  intros nm tbl. induction tbl as [| row tbl IH]; simpl.
  - tauto.
  - unfold named at 1. destruct (String.eqb (name row) nm) eqn:E.
    + apply String.eqb_eq in E. split; [discriminate | tauto].
    + apply String.eqb_neq in E. rewrite IH. tauto.
Qed.

Lemma NoDup_filter_named :
  forall (nm : string) (tbl : list Role),
    NoDup (map name tbl) ->
    (List.length (filter (named nm) tbl) <= 1)%nat.
Proof.
  intros nm tbl. induction tbl as [| row tbl IH]; simpl; intros Hnd.
  - lia.
  - inversion Hnd as [| x l Hnotin Hnd']; subst.
    unfold named at 1. destruct (String.eqb (name row) nm) eqn:E.
    + apply String.eqb_eq in E. subst nm.
      apply filter_named_nil in Hnotin. rewrite Hnotin. simpl. lia.
    + apply IH. exact Hnd'.
Qed.

Lemma name_assign_role :
  forall now r row, name (assign_role import_time now r row) = name row.
Proof.
  intros now r row. unfold assign_role. destruct (_ && _); reflexivity.
Qed.

Lemma role_key_assign_role :
  forall now r row,
    role_key (assign_role import_time now r row) = role_key row.
Proof.
  intros now r row. unfold assign_role. destruct (_ && _); reflexivity.
Qed.

Lemma assign_role_values :
  forall now r row,
    description (assign_role import_time now r row) = new_description r
    /\ raw_permissions (assign_role import_time now r row)
       = new_raw_permissions r.
Proof.
  intros now r row. unfold assign_role.
  destruct (String.eqb (description row) (new_description r)) eqn:Ed;
    destruct (Z.eqb (raw_permissions row) (new_raw_permissions r)) eqn:Ep;
    simpl; try (split; reflexivity).
  apply String.eqb_eq in Ed. apply Z.eqb_eq in Ep. split; assumption.
Qed.

Lemma upsert_rows_absent :
  forall now r tbl n,
    ~ In (new_name r) (map name tbl) ->
    upsert now r tbl n =
    (tbl ++ [inserted now n r], S n).
Proof.
  intros now r tbl n H. unfold upsert_rows.
  apply filter_named_nil in H. rewrite H. reflexivity.
Qed.

Lemma upsert_rows_present :
  forall now r tbl n,
    In (new_name r) (map name tbl) ->
    upsert now r tbl n =
    (map (fun row => if named (new_name r) row
                     then assign_role import_time now r row else row) tbl,
     n).
Proof.
  intros now r tbl n H. unfold upsert_rows.
  destruct (filter (named (new_name r)) tbl) eqn:E; [| reflexivity].
  apply filter_named_nil in E. contradiction.
Qed.

(** The names after one turn: the old ones, and [r]'s if it was missing. *)
Lemma upsert_rows_names :
  forall now r tbl n,
    map name (fst (upsert now r tbl n)) =
    map name tbl
      ++ (if In_name_dec (new_name r) tbl then [] else [new_name r]).
Proof.
  intros now r tbl n. destruct (In_name_dec (new_name r) tbl) as [H | H].
  - rewrite upsert_rows_present by exact H. simpl.
    rewrite app_nil_r, map_map. apply map_ext.
    intros row. destruct (named _ row); [apply name_assign_role | reflexivity].
  - rewrite upsert_rows_absent by exact H. simpl.
    rewrite map_app. reflexivity.
Qed.

(** The keys after one turn: the old ones in place, then the new row's. *)
Lemma upsert_rows_keys :
  forall now r tbl n,
    exists extra,
      map role_key (fst (upsert now r tbl n)) = map role_key tbl ++ extra.
Proof.
  intros now r tbl n. destruct (In_name_dec (new_name r) tbl) as [H | H].
  - rewrite upsert_rows_present by exact H. simpl. exists [].
    rewrite app_nil_r, map_map. apply map_ext.
    intros row. destruct (named _ row);
      [apply role_key_assign_role | reflexivity].
  - rewrite upsert_rows_absent by exact H. simpl.
    rewrite map_app. eexists. reflexivity.
Qed.

Lemma upsert_rows_NoDup :
  forall now r tbl n,
    NoDup (map name tbl) ->
    NoDup (map name (fst (upsert now r tbl n))).
Proof.
  intros now r tbl n Hnd. rewrite upsert_rows_names.
  destruct (In_name_dec (new_name r) tbl) as [H | H].
  - rewrite app_nil_r. exact Hnd.
  - apply NoDup_app; [exact Hnd | repeat constructor; simpl; tauto |].
    intros x Hx [Hx' | []]. subst x. contradiction.
Qed.

(** After its turn, [r]'s name is in the table and its rows carry its
    values. *)
Lemma upsert_rows_settles :
  forall now r tbl n,
    In (new_name r) (map name (fst (upsert now r tbl n)))
    /\ settled r (fst (upsert now r tbl n)).
Proof.
  intros now r tbl n. split.
  - rewrite upsert_rows_names. apply in_or_app.
    destruct (In_name_dec (new_name r) tbl) as [H | H];
      [left; exact H | right; left; reflexivity].
  - intros row Hin Hname.
    destruct (In_name_dec (new_name r) tbl) as [H | H].
    + rewrite upsert_rows_present in Hin by exact H. simpl in Hin.
      apply in_map_iff in Hin. destruct Hin as (row0 & Heq & _).
      destruct (named (new_name r) row0) eqn:E.
      * subst row. apply assign_role_values.
      * subst row. unfold named in E. apply String.eqb_neq in E.
        contradiction.
    + rewrite upsert_rows_absent in Hin by exact H. simpl in Hin.
      apply in_app_or in Hin. destruct Hin as [Hin | [Heq | []]].
      * exfalso. apply H. rewrite <- Hname. apply in_map. exact Hin.
      * subst row. split; reflexivity.
Qed.

(** A turn for another name leaves settled rows settled. *)
Lemma upsert_rows_keeps_settled :
  forall now r r' tbl n,
    new_name r' <> new_name r ->
    settled r' tbl ->
    settled r' (fst (upsert now r tbl n)).
Proof.
  intros now r r' tbl n Hne Hs row Hin Hname.
  destruct (In_name_dec (new_name r) tbl) as [H | H].
  - rewrite upsert_rows_present in Hin by exact H. simpl in Hin.
    apply in_map_iff in Hin. destruct Hin as (row0 & Heq & Hin0).
    destruct (named (new_name r) row0) eqn:E.
    + exfalso. subst row. rewrite name_assign_role in Hname.
      unfold named in E. apply String.eqb_eq in E. congruence.
    + subst row. apply Hs; assumption.
  - rewrite upsert_rows_absent in Hin by exact H. simpl in Hin.
    apply in_app_or in Hin. destruct Hin as [Hin | [Heq | []]].
    + apply Hs; assumption.
    + exfalso. subst row. simpl in Hname. congruence.
Qed.

(** A turn leaves every row of another name as it is. *)
Lemma upsert_rows_keeps_others :
  forall now r tbl n row,
    In row tbl -> name row <> new_name r ->
    In row (fst (upsert now r tbl n)).
Proof.
  intros now r tbl n row Hin Hne.
  destruct (In_name_dec (new_name r) tbl) as [H | H].
  - rewrite upsert_rows_present by exact H. simpl.
    apply in_map_iff. exists row. split; [| exact Hin].
    unfold named. apply String.eqb_neq in Hne. rewrite Hne. reflexivity.
  - rewrite upsert_rows_absent by exact H. simpl.
    apply in_or_app. left. exact Hin.
Qed.

(** A turn for a role that is there and settled changes nothing and draws
    no uuid. *)
Lemma upsert_rows_settled_noop :
  forall now r tbl n,
    In (new_name r) (map name tbl) -> settled r tbl ->
    upsert now r tbl n = (tbl, n).
Proof.
  intros now r tbl n Hin Hs. rewrite upsert_rows_present by exact Hin.
  f_equal. rewrite <- (map_id tbl) at 2. apply map_ext_in.
  intros row Hrow. unfold named.
  destruct (String.eqb (name row) (new_name r)) eqn:E; [| reflexivity].
  apply String.eqb_eq in E. destruct (Hs row Hrow E) as [Hd Hp].
  unfold assign_role. rewrite Hd, Hp, String.eqb_refl, Z.eqb_refl.
  reflexivity.
Qed.

(** *** The loop on the table *)

Lemma seed_rows_NoDup :
  forall now rs tbl n,
    NoDup (map name tbl) ->
    NoDup (map name (fst (seed now rs tbl n))).
Proof.
  intros now rs. induction rs as [| r rs IH]; intros tbl n Hnd; simpl.
  - exact Hnd.
  - pose proof (upsert_rows_NoDup now r tbl n Hnd) as H1.
    destruct (upsert now r tbl n) as [tbl' n']. apply IH. exact H1.
Qed.

Lemma seed_rows_names :
  forall now rs tbl n nm,
    In nm (map name (fst (seed now rs tbl n))) <->
    In nm (map name tbl) \/ In nm (map new_name rs).
Proof.
  intros now rs. induction rs as [| r rs IH]; intros tbl n nm; simpl.
  - tauto.
  - pose proof (upsert_rows_names now r tbl n) as H1.
    destruct (upsert now r tbl n) as [tbl' n']. simpl in H1.
    rewrite IH, H1, in_app_iff.
    destruct (In_name_dec (new_name r) tbl) as [H | H]; simpl.
    + split; [tauto |]. intros [Ha | [Hb | Hc]]; try tauto.
      subst nm. tauto.
    + tauto.
Qed.

Lemma seed_rows_keys :
  forall now rs tbl n,
    exists extra,
      map role_key (fst (seed now rs tbl n)) = map role_key tbl ++ extra.
Proof.
  intros now rs. induction rs as [| r rs IH]; intros tbl n; simpl.
  - exists []. rewrite app_nil_r. reflexivity.
  - destruct (upsert_rows_keys now r tbl n) as [e1 H1].
    destruct (upsert now r tbl n) as [tbl' n']. simpl in H1.
    destruct (IH tbl' n') as [e2 H2]. rewrite H2, H1, <- app_assoc.
    eexists. reflexivity.
Qed.

Lemma seed_rows_keeps_settled :
  forall now rs r' tbl n,
    ~ In (new_name r') (map new_name rs) ->
    settled r' tbl ->
    settled r' (fst (seed now rs tbl n)).
Proof.
  intros now rs r'. induction rs as [| r rs IH]; intros tbl n Hnot Hs; simpl.
  - exact Hs.
  - simpl in Hnot.
    pose proof (upsert_rows_keeps_settled now r r' tbl n) as H1.
    destruct (upsert now r tbl n) as [tbl' n']. simpl in H1.
    apply IH; [tauto |]. apply H1; [| exact Hs].
    intros Heq. apply Hnot. left. symmetry. exact Heq.
Qed.

Lemma seed_rows_settles :
  forall now rs tbl n r,
    NoDup (map new_name rs) -> In r rs ->
    settled r (fst (seed now rs tbl n)).
Proof.
  intros now rs. induction rs as [| r0 rs IH]; intros tbl n r Hnd Hin;
    simpl in *.
  - contradiction.
  - inversion Hnd as [| x l Hnotin Hnd']; subst.
    pose proof (upsert_rows_settles now r0 tbl n) as [_ H1].
    destruct (upsert now r0 tbl n) as [tbl' n']. simpl in H1.
    destruct Hin as [Heq | Hin].
    + subst r0. apply seed_rows_keeps_settled; assumption.
    + apply IH; assumption.
Qed.

Lemma seed_rows_keeps_others :
  forall now rs tbl n row,
    In row tbl -> ~ In (name row) (map new_name rs) ->
    In row (fst (seed now rs tbl n)).
Proof.
  intros now rs. induction rs as [| r rs IH]; intros tbl n row Hin Hnot;
    simpl in *.
  - exact Hin.
  - pose proof (upsert_rows_keeps_others now r tbl n row Hin) as H1.
    destruct (upsert now r tbl n) as [tbl' n']. simpl in H1.
    apply IH; [apply H1 |]; intuition congruence.
Qed.

Lemma seed_rows_settled_noop :
  forall now rs tbl n,
    (forall r, In r rs -> In (new_name r) (map name tbl) /\ settled r tbl) ->
    seed now rs tbl n = (tbl, n).
Proof.
  intros now rs. induction rs as [| r rs IH]; intros tbl n H; simpl.
  - reflexivity.
  - destruct (H r (or_introl eq_refl)) as [Hin Hs].
    rewrite upsert_rows_settled_noop by assumption.
    apply IH. intros r' Hr'. apply H. right. exact Hr'.
Qed.

(** *** From the session to the table *)

Lemma flush_shape :
  forall now s,
    added_roles (flushed now s) = []
    /\ added_users (flushed now s) = []
    /\ db_roles (flushed now s) = db_roles s
    /\ calls (flushed now s) = calls s.
Proof.
  intros now s. unfold flush.
  destruct (insert_roles _ _ _ _ _ _) as [tbl n]. simpl. tauto.
Qed.

(** With nothing pending, a flush at any time leaves the role table and
    the uuid count alone. *)
Lemma flush_nothing_pending :
  forall now s,
    added_roles s = [] ->
    tx_roles (flushed now s) = tx_roles s
    /\ draws (flushed now s) = draws s.
Proof.
  intros now s H. unfold flush. rewrite H. simpl. tauto.
Qed.

(** One turn of the loop does to the visible table what [upsert_rows]
    does, makes one [add] call, raises nothing and commits nothing. *)
Lemma upsert_role_step :
  forall now r s,
    NoDup (map name (visible now s)) ->
    exists s',
      upsert_one now r s = (s', Return tt)
      /\ (visible now s', draws (flushed now s'))
         = upsert now r (visible now s)
                       (draws (flushed now s))
      /\ calls s' = calls s ++ [CallAdd]
      /\ db_roles s' = db_roles s.
Proof.
  intros now r s Hnd.
  pose proof (NoDup_filter_named (new_name r) _ Hnd) as Hlen.
  unfold upsert_role, upsert_rows, visible_roles in *.
  change (fun row : Role => String.eqb (name row) (new_name r))
    with (named (new_name r)).
  unfold flush in *.
  destruct (insert_roles uuid4_hex import_time now (added_roles s) (draws s)
                         (tx_roles s)) as [tbl n].
  simpl in *.
  destruct (filter (named (new_name r)) tbl) as [| x [| y l]]; simpl in *.
  - eexists. split; [reflexivity |]. simpl. repeat split.
  - eexists. split; [reflexivity |]. simpl. repeat split.
  - lia.
Qed.

Lemma for_each_upsert_role :
  forall now rs s,
    NoDup (map name (visible now s)) ->
    exists s',
      for_each (upsert_one now) rs s = (s', Return tt)
      /\ (visible now s', draws (flushed now s'))
         = seed now rs (visible now s)
                     (draws (flushed now s))
      /\ calls s' = calls s ++ repeat CallAdd (List.length rs)
      /\ db_roles s' = db_roles s.
Proof.
  intros now rs. induction rs as [| r rs IH]; intros s Hnd; simpl.
  - exists s. rewrite app_nil_r. repeat split.
  - destruct (upsert_role_step now r s Hnd) as (s1 & Hrun & Hrows & Hc & Hdb).
    rewrite Hrun.
    assert (Hnd1 : NoDup (map name (visible now s1))).
    { replace (visible now s1)
        with (fst (upsert now r (visible now s)
                     (draws (flushed now s))))
        by (rewrite <- Hrows; reflexivity).
      apply upsert_rows_NoDup. exact Hnd. }
    destruct (IH s1 Hnd1) as (s' & Hrun' & Hrows' & Hc' & Hdb').
    exists s'. rewrite <- Hrows. repeat split.
    + exact Hrun'.
    + exact Hrows'.
    + rewrite Hc', Hc, <- app_assoc. reflexivity.
    + congruence.
Qed.

(** [initialize_role_table] raises nothing on a table with unique names;
    it stores what [seed_rows] computes, in one commit. *)
Lemma initialize_role_table_rows :
  forall now s,
    NoDup (map name (visible now s)) ->
    let out := initialize now s in
    let seeded := seed now roles (visible now s)
                            (draws (flushed now s)) in
    snd out = Return tt
    /\ db_roles (fst out) = fst seeded
    /\ tx_roles (fst out) = fst seeded
    /\ draws (fst out) = snd seeded
    /\ added_roles (fst out) = []
    /\ calls (fst out) =
       calls s ++ [CallAdd; CallAdd; CallAdd; CallCommit; CallClose].
Proof.
  intros now s Hnd out seeded. subst out seeded.
  unfold initialize_role_table, db_session_manager.
  destruct (for_each_upsert_role now roles s Hnd)
    as (s3 & Hrun & Hrows & Hc & _).
  rewrite Hrun. rewrite <- Hrows. simpl.
  pose proof (flush_shape now s3) as (_ & _ & _ & Hcalls).
  unfold visible_roles. repeat split.
  rewrite Hcalls, Hc. simpl. rewrite <- !app_assoc. reflexivity.
Qed.

(** Until the commit nothing reaches the stored table: a run that raises
    (two rows of one name make [one_or_none] raise) stores none of its
    upserts. *)
Lemma upsert_role_keeps_stored :
  forall now r s, db_roles (fst (upsert_one now r s)) = db_roles s.
Proof.
  intros now r s. unfold upsert_role.
  pose proof (flush_shape now s) as (_ & _ & Hdb & _).
  destruct (one_or_none _) as [[row |] | e]; simpl; exact Hdb.
Qed.

Lemma for_each_keeps_stored :
  forall now rs s,
    db_roles (fst (for_each (upsert_one now) rs s)) = db_roles s.
Proof.
  intros now rs. induction rs as [| r rs IH]; intros s; simpl.
  - reflexivity.
  - pose proof (upsert_role_keeps_stored now r s) as H1.
    destruct (upsert_one now r s) as [s1 [[] | e]]; simpl in *.
    + rewrite IH. exact H1.
    + exact H1.
Qed.

Lemma initialize_role_table_all_or_nothing :
  forall now s e,
    snd (initialize now s) = Raise e ->
    db_roles (fst (initialize now s)) = db_roles s
    /\ tx_roles (fst (initialize now s)) = db_roles s.
Proof.
  intros now s e. unfold initialize_role_table, db_session_manager.
  pose proof (for_each_keeps_stored now roles s) as Hdb.
  destruct (for_each (upsert_one now) roles s) as [s3 [[] | e']];
    simpl in *; [discriminate |].
  intros _. destruct (isinstance_Exception e'); simpl; split; exact Hdb.
Qed.

(** *** The seeded table *)

Lemma canonical_names_eq : canonical_names = ["user"; "editor"; "admin"].
Proof. reflexivity. Qed.

Lemma canonical_names_NoDup : NoDup (map new_name roles).
Proof.
  repeat constructor; simpl; intuition discriminate.
Qed.

Lemma canonical_In :
  forall row, canonical row = true <-> In (name row) canonical_names.
Proof.
  intros row. unfold canonical. rewrite existsb_exists. split.
  - intros (nm & Hin & Heq). apply String.eqb_eq in Heq. congruence.
  - intros Hin. exists (name row). split; [exact Hin | apply String.eqb_refl].
Qed.

Lemma NoDup_map_filter :
  forall (p : Role -> bool) (tbl : list Role),
    NoDup (map name tbl) -> NoDup (map name (filter p tbl)).
Proof.
  intros p tbl. induction tbl as [| row tbl IH]; simpl; intros Hnd.
  - constructor.
  - inversion Hnd as [| x l Hnotin Hnd']; subst.
    destruct (p row); simpl; [constructor |]; auto.
    intros Hin. apply Hnotin. apply in_map_iff in Hin.
    destruct Hin as (row' & Heq & Hin). apply filter_In in Hin.
    rewrite <- Heq. apply in_map. tauto.
Qed.

(** Everything the loop leaves in the table, from any table with unique
    names. *)
Lemma seed_rows_table :
  forall now tbl n,
    NoDup (map name tbl) ->
    let after := fst (seed now roles tbl n) in
    NoDup (map name after)
    /\ (forall r, In r roles ->
          In (new_name r) (map name after) /\ settled r after)
    /\ (forall r, In r roles ->
          exists row, filter (named (new_name r)) after = [row]
                      /\ description row = new_description r
                      /\ raw_permissions row = new_raw_permissions r)
    /\ Permutation (map name (filter canonical after))
                   ["user"; "editor"; "admin"]
    /\ ((forall row, In row tbl -> canonical row = true) ->
        Permutation (map name after) ["user"; "editor"; "admin"]).
Proof.
  intros now tbl n Hnd after.
  assert (Hnd' : NoDup (map name after)) by (apply seed_rows_NoDup; exact Hnd).
  assert (Hset : forall r, In r roles ->
                   In (new_name r) (map name after) /\ settled r after).
  { intros r Hr. split.
    - apply seed_rows_names. right. apply in_map. exact Hr.
    - apply seed_rows_settles; [apply canonical_names_NoDup | exact Hr]. }
  split; [exact Hnd' | split; [exact Hset | split; [| split]]].
  - intros r Hr. destruct (Hset r Hr) as [Hin Hs].
    pose proof (NoDup_filter_named (new_name r) after Hnd') as Hlen.
    destruct (filter (named (new_name r)) after) as [| row [| row' l]] eqn:E.
    + apply filter_named_nil in E. contradiction.
    + exists row. split; [reflexivity |].
      assert (Hrow : In row (filter (named (new_name r)) after))
        by (rewrite E; left; reflexivity).
      apply filter_In in Hrow. destruct Hrow as [Hrow Hnamed].
      apply Hs; [exact Hrow |]. apply String.eqb_eq. exact Hnamed.
    + simpl in Hlen. lia.
  - rewrite <- canonical_names_eq.
    apply NoDup_Permutation;
      [apply NoDup_map_filter; exact Hnd' | apply canonical_names_NoDup |].
    intros nm. split.
    + intros Hin. apply in_map_iff in Hin. destruct Hin as (row & Heq & Hin).
      apply filter_In in Hin. destruct Hin as [_ Hc].
      apply canonical_In in Hc. congruence.
    + intros Hin.
      assert (Hin' : In nm (map name after))
        by (apply seed_rows_names; right; exact Hin).
      apply in_map_iff in Hin'. destruct Hin' as (row & Heq & Hrow).
      apply in_map_iff. exists row. split; [exact Heq |].
      apply filter_In. split; [exact Hrow |].
      apply canonical_In. rewrite Heq. exact Hin.
  - intros Hall. rewrite <- canonical_names_eq.
    apply NoDup_Permutation; [exact Hnd' | apply canonical_names_NoDup |].
    intros nm. unfold after. rewrite seed_rows_names. split.
    + intros [Hin | Hin]; [| exact Hin].
      apply in_map_iff in Hin. destruct Hin as (row & Heq & Hrow).
      rewrite <- Heq. apply canonical_In. apply Hall. exact Hrow.
    + intros Hin. right. exact Hin.
Qed.

(** C5.  From any role table whose names are unique (the column is
    declared unique), [initialize_role_table] raises nothing and:
    - makes its three [add] calls and then one [commit], so the three
      upserts are stored together, and closes the session;
    - leaves exactly one row for each of ["user"], ["editor"], ["admin"],
      carrying the description and the permissions of [roles], whatever
      these rows held before; these are the only rows with those names, and
      the whole table when no other role was there;
    - keeps the [role_uid] and the [name] of every row that was there, in
      place, and leaves rows of other names as they were;
    - stores permissions that form a strict chain of bit sets, user within
      editor within admin;
    - is idempotent: a second run, at any later time, raises nothing,
      stores the same table and draws no new identifier. *)
Theorem initialize_role_table_idempotent_upsert :
  forall (now : Z) (s : Session),
    NoDup (map name (visible_roles uuid4_hex import_time now s)) ->
    let before := visible_roles uuid4_hex import_time now s in
    let out := initialize_role_table uuid4_hex import_time now s in
    let after := db_roles (fst out) in
    snd out = Return tt
    /\ calls (fst out) =
       calls s ++ [CallAdd; CallAdd; CallAdd; CallCommit; CallClose]
    /\ NoDup (map name after)
    /\ (forall r, In r roles ->
          exists row, filter (named (new_name r)) after = [row]
                      /\ description row = new_description r
                      /\ raw_permissions row = new_raw_permissions r)
    /\ Permutation (map name (filter canonical after))
                   ["user"; "editor"; "admin"]
    /\ ((forall row, In row before -> canonical row = true) ->
        Permutation (map name after) ["user"; "editor"; "admin"])
    /\ (exists extra, map role_key after = map role_key before ++ extra)
    /\ (forall row, In row before -> canonical row = false -> In row after)
    /\ (forall u e a,
          In u after -> In e after -> In a after ->
          name u = "user" -> name e = "editor" -> name a = "admin" ->
          strict_subset (raw_permissions u) (raw_permissions e)
          /\ strict_subset (raw_permissions e) (raw_permissions a))
    /\ (forall now',
          let again :=
            initialize_role_table uuid4_hex import_time now' (fst out) in
          snd again = Return tt
          /\ db_roles (fst again) = after
          /\ draws (fst again) = draws (fst out)).
Proof.
  intros now s Hnd before out after.
  destruct (initialize_role_table_rows now s Hnd)
    as (Hret & Hdb & Htx & Hdraws & Hadded & Hcalls).
  fold out in Hret, Hdb, Htx, Hdraws, Hadded, Hcalls.
  fold before in Hdb, Htx, Hdraws.
  set (n := draws (flush uuid4_hex import_time now s)) in *.
  destruct (seed_rows_table now before n Hnd)
    as (Hnd' & Hset & Hone & Hthree & Hwhole).
  unfold after. rewrite Hdb.
  split; [exact Hret | split; [exact Hcalls | split; [exact Hnd' |]]].
  split; [exact Hone | split; [exact Hthree | split; [exact Hwhole |]]].
  split; [apply seed_rows_keys | split; [| split]].
  - intros row Hrow Hc. apply seed_rows_keeps_others; [exact Hrow |].
    intros Hin. apply canonical_In in Hin. congruence.
  - intros u e a Hu He Ha Hnu Hne Hna.
    destruct (Hset (nth 0 roles (mkNewRole "" "" 0)) (or_introl eq_refl))
      as [_ Hsu].
    destruct (Hset (nth 1 roles (mkNewRole "" "" 0))
                   (or_intror (or_introl eq_refl))) as [_ Hse].
    destruct (Hset (nth 2 roles (mkNewRole "" "" 0))
                   (or_intror (or_intror (or_introl eq_refl)))) as [_ Hsa].
    destruct (Hsu u Hu Hnu) as [_ Hpu].
    destruct (Hse e He Hne) as [_ Hpe].
    destruct (Hsa a Ha Hna) as [_ Hpa].
    rewrite Hpu, Hpe, Hpa. unfold strict_subset.
    repeat split; try reflexivity; discriminate.
  - intros now'.
    destruct (flush_nothing_pending now' (fst out) Hadded) as [Hvis Hdr].
    assert (Hnd2 : NoDup (map name (visible now' (fst out)))).
    { unfold visible_roles. rewrite Hvis, Htx. exact Hnd'. }
    destruct (initialize_role_table_rows now' (fst out) Hnd2)
      as (Hret2 & Hdb2 & _ & Hdraws2 & _).
    unfold visible_roles in Hdb2, Hdraws2.
    rewrite Hvis, Hdr, Htx in Hdb2, Hdraws2.
    rewrite seed_rows_settled_noop in Hdb2, Hdraws2 by exact Hset.
    simpl in Hdb2, Hdraws2. repeat split; assumption.
Qed.

End RoleTable.

(** C5 at a sample: a table that holds only an ["editor"] row whose
    description and permissions were altered by hand.  One run restores the
    row under its old identifier and adds the two missing roles. *)
Lemma initialize_role_table_sample :
  let tampered := mkRole "e0" "editor" "anything goes" 255 true 0 0 in
  let s := mkSession [] [tampered] [] [tampered] [] [] 0 [] in
  let out := initialize_role_table Sample.uuid4_hex 0 10 s in
  snd out = Return tt
  /\ Permutation (map name (db_roles (fst out))) ["user"; "editor"; "admin"]
  /\ map (fun row => (role_uid row, name row, raw_permissions row))
         (db_roles (fst out))
     = [("e0", "editor", 3);
        ("0123456789abcdef", "user", 1);
        ("0123456789abcdef", "admin", 7)].
Proof.
  cbv zeta.
  assert (Hnd : NoDup (map name
            (visible_roles Sample.uuid4_hex 0 10
               (mkSession [] [mkRole "e0" "editor" "anything goes" 255 true 0 0]
                          [] [mkRole "e0" "editor" "anything goes" 255 true 0 0]
                          [] [] 0 [])))).
  { repeat constructor; simpl; tauto. }
  destruct (initialize_role_table_idempotent_upsert Sample.uuid4_hex 0 10 _ Hnd)
    as (Hret & _ & _ & _ & _ & Hwhole & _).
  split; [exact Hret | split; [| reflexivity]].
  apply Hwhole. intros row [Heq | []]. subst row. reflexivity.
Defined.

(** * Further properties *)

(** ** The session scope *)

(** What a scope that closes leaves behind. *)
Lemma closing_scope_is_clean :
  forall (A : Type) (body : Session -> Session * result A) (s : Session),
    let out := db_session_manager true body s in
    added_users (fst out) = []
    /\ added_roles (fst out) = []
    /\ tx_users (fst out) = db_users (fst out)
    /\ tx_roles (fst out) = db_roles (fst out).
Proof.
  intros A body s. unfold db_session_manager.
  destruct (body s) as [s1 [v | e]]; [| destruct (isinstance_Exception e)];
    simpl; repeat split.
Qed.

(** The scope leaves the stored tables and the uuid count as the block
    left them. *)
Lemma scope_keeps_stored :
  forall (A : Type) (session_close : bool)
         (body : Session -> Session * result A) (s : Session),
    let out := db_session_manager session_close body s in
    db_users (fst out) = db_users (fst (body s))
    /\ db_roles (fst out) = db_roles (fst (body s))
    /\ draws (fst out) = draws (fst (body s)).
Proof.
  intros A sc body s. unfold db_session_manager.
  destruct (body s) as [s1 [v | e]]; [| destruct (isinstance_Exception e)];
    destruct sc; simpl; repeat split.
Qed.

(** A commit on a session with nothing pending stores the transaction's
    tables as they are. *)
Lemma commit_nothing_pending :
  forall uuid4_hex import_time now s,
    added_users s = [] -> added_roles s = [] ->
    db_users (commit uuid4_hex import_time now s) = tx_users s
    /\ db_roles (commit uuid4_hex import_time now s) = tx_roles s
    /\ draws (commit uuid4_hex import_time now s) = draws s.
Proof.
  intros uuid imp now s Hu Hr. unfold commit, flush. rewrite Hu, Hr. simpl.
  repeat split.
Qed.

(** X1.  [db_session_manager] never commits: whatever the block does and
    however it ends, the stored user and role tables after the scope are
    the ones the block left, and none of the calls the scope itself makes
    on the session is a [commit]. *)
Theorem db_session_manager_never_commits :
  forall (A : Type) (session_close : bool)
         (body : Session -> Session * result A) (s : Session),
    let out := db_session_manager session_close body s in
    db_users (fst out) = db_users (fst (body s))
    /\ db_roles (fst out) = db_roles (fst (body s))
    /\ ~ In CallCommit
           (skipn (List.length (calls (fst (body s)))) (calls (fst out))).
Proof.
  intros A sc body s out.
  destruct (scope_keeps_stored A sc body s) as (Hu & Hr & _).
  split; [exact Hu | split; [exact Hr |]].
  unfold out. rewrite db_session_manager_calls.
  rewrite skipn_app, skipn_all, Nat.sub_diag. simpl.
  destruct (snd (body s)) as [v | e]; [| destruct (isinstance_Exception e)];
    destruct sc; simpl; intuition discriminate.
Qed.

(** X2.  A scope entered with [session_close] true (the default) leaves
    nothing uncommitted in the shared session, whether the block completed
    or raised: what was added or flushed and not committed -- inside the
    scope or before it was entered -- is gone, and a [commit] issued after
    the scope stores nothing beyond what the block had committed itself. *)
Theorem closing_scope_drops_uncommitted_work :
  forall (A : Type) (body : Session -> Session * result A) (s : Session)
         (uuid4_hex : nat -> string) (import_time now : Z),
    let out := db_session_manager true body s in
    added_users (fst out) = []
    /\ added_roles (fst out) = []
    /\ tx_users (fst out) = db_users (fst (body s))
    /\ tx_roles (fst out) = db_roles (fst (body s))
    /\ db_users (commit uuid4_hex import_time now (fst out))
       = db_users (fst (body s))
    /\ db_roles (commit uuid4_hex import_time now (fst out))
       = db_roles (fst (body s)).
Proof.
  intros A body s uuid imp now out.
  destruct (closing_scope_is_clean A body s) as (Hau & Har & Htu & Htr).
  destruct (scope_keeps_stored A true body s) as (Hu & Hr & _).
  fold out in Hau, Har, Htu, Htr, Hu, Hr.
  destruct (commit_nothing_pending uuid imp now (fst out) Hau Har)
    as (Hcu & Hcr & _).
  rewrite Hcu, Hcr, Htu, Htr, Hu, Hr. repeat split; assumption.
Qed.

(** ** Confirmation tokens *)

(** What [confirm_token] makes of a token that [confirmation_token] issued
    for the user [issuer] at [issued]. *)
Lemma accepts_issued_token :
  forall timed_signature cfg now self issuer minutes issued,
    accepts timed_signature cfg now self
            (confirmation_token timed_signature cfg issued issuer) minutes =
    negb ((now - issued >? minutes * 60 * 1000) || (now - issued <? 0))
    && String.eqb (user_uid issuer) (user_uid self).
Proof.
  intros sg cfg now self issuer minutes issued.
  unfold accepts, confirmation_token, dumps. rewrite loads_verdict.
  cbn. rewrite String.eqb_refl.
  destruct (_ || _); cbn; [reflexivity |].
  rewrite Bool.negb_involutive. reflexivity.
Qed.

(** X3.  Round trip of the confirmation token: with the timeout
    configured, the token [confirmation_token] issues for a user, handed
    back to the same user's [confirm_token] within the configured number
    of minutes, is taken: the call returns true, sets [confirmed] and adds
    the user to the session. *)
Theorem confirmation_token_round_trip :
  forall timed_signature cfg self s minutes issued now,
    CONFIRMATION_LINK_TIMEOUT cfg = Some minutes ->
    issued <= now ->
    now - issued <= minutes * 60 ->
    confirm_token timed_signature cfg now self
                  (confirmation_token timed_signature cfg issued self) s =
    (close (add_user (set_confirmed true self) s),
     Return (set_confirmed true self, true)).
Proof.
  intros sg cfg self s minutes issued now Hcfg Hle Hage.
  rewrite (confirm_token_cases sg cfg now self s minutes) by exact Hcfg.
  rewrite escapes_issued_token, accepts_issued_token, String.eqb_refl.
  rewrite Z.gtb_ltb.
  replace (minutes * 60 * 1000 <? now - issued) with false
    by (symmetry; apply Z.ltb_ge; lia).
  replace (now - issued <? 0) with false by (symmetry; apply Z.ltb_ge; lia).
  reflexivity.
Qed.

(** X3 at a sample: a 5-minute timeout, the token handed back after 10
    seconds. *)
Lemma confirmation_token_round_trip_sample :
  confirm_token Sample.signature (Sample.cfg (Some 5)) 110 Sample.alice
    (confirmation_token Sample.signature (Sample.cfg (Some 5)) 100
                        Sample.alice)
    Sample.empty_session =
  (close (add_user (set_confirmed true Sample.alice) Sample.empty_session),
   Return (set_confirmed true Sample.alice, true)).
Proof.
  apply (confirmation_token_round_trip Sample.signature (Sample.cfg (Some 5))
           Sample.alice Sample.empty_session 5 100 110).
  - reflexivity.
  - discriminate.
  - discriminate.
Defined.

(** X4.  A confirmation token issued for one user is turned down by every
    user with a different [user_uid], at whatever time it is presented:
    [confirm_token] returns false and leaves [self] as it was. *)
Theorem confirm_token_turns_down_another_users_token :
  forall timed_signature cfg self other s minutes issued now,
    CONFIRMATION_LINK_TIMEOUT cfg = Some minutes ->
    user_uid other <> user_uid self ->
    confirm_token timed_signature cfg now self
                  (confirmation_token timed_signature cfg issued other) s =
    (close s, Return (self, false)).
Proof.
  intros sg cfg self other s minutes issued now Hcfg Hne.
  rewrite (confirm_token_cases sg cfg now self s minutes) by exact Hcfg.
  rewrite escapes_issued_token, accepts_issued_token.
  apply String.eqb_neq in Hne. rewrite Hne, Bool.andb_false_r. reflexivity.
Qed.

(** X4 at a sample: Alice's token, presented by Bob one second later. *)
Lemma confirm_token_turns_down_another_users_token_sample :
  let bob := mkUser "b2" "r1" "Bob" "Baker" "bob@example.org"
                    (mkHash "pepper" "hunter2") true false 0 0 in
  confirm_token Sample.signature (Sample.cfg (Some 5)) 101 bob
    (confirmation_token Sample.signature (Sample.cfg (Some 5)) 100
                        Sample.alice)
    Sample.empty_session =
  (close Sample.empty_session, Return (bob, false)).
Proof.
  cbv zeta.
  apply (confirm_token_turns_down_another_users_token Sample.signature
           (Sample.cfg (Some 5)) _ Sample.alice Sample.empty_session 5
           100 101).
  - reflexivity.
  - discriminate.
Defined.

Lemma set_confirmed_same :
  forall self : User, set_confirmed (confirmed self) self = self.
Proof. intros []. reflexivity. Qed.

(** X5.  With the timeout configured, [confirm_token] touches no field of
    [self] but [confirmed], and never clears it: whenever it returns, the
    object it leaves is [self] with [confirmed] set to [confirmed or b],
    [b] being the value returned.  A user already confirmed stays confirmed
    whatever token the call returns on. *)
Theorem confirm_token_only_sets_confirmed :
  forall timed_signature cfg now self token s minutes self' b,
    CONFIRMATION_LINK_TIMEOUT cfg = Some minutes ->
    snd (confirm_token timed_signature cfg now self token s) =
    Return (self', b) ->
    self' = set_confirmed (confirmed self || b) self.
Proof.
  intros sg cfg now self token s minutes self' b Hcfg.
  rewrite (confirm_token_cases sg cfg now self s minutes) by exact Hcfg.
  destruct (escapes sg (SECRET_KEY cfg) now token (minutes * 60 * 1000));
    [discriminate |].
  destruct (accepts sg cfg now self token minutes); cbn; intros H;
    inversion H; subst.
  - rewrite Bool.orb_true_r. reflexivity.
  - rewrite Bool.orb_false_r, set_confirmed_same. reflexivity.
Qed.

(** X5 at a sample: a confirmed user presents a string that is no token. *)
Lemma confirm_token_only_sets_confirmed_sample :
  snd (confirm_token Sample.signature (Sample.cfg (Some 5)) 100
         (set_confirmed true Sample.alice) (Unsigned "junk")
         Sample.empty_session) =
  Return (set_confirmed true Sample.alice, false)
  /\ set_confirmed true Sample.alice =
     set_confirmed (confirmed (set_confirmed true Sample.alice) || false)
                   (set_confirmed true Sample.alice).
Proof.
  split; [reflexivity |].
  apply (confirm_token_only_sets_confirmed Sample.signature
           (Sample.cfg (Some 5)) 100 (set_confirmed true Sample.alice)
           (Unsigned "junk") Sample.empty_session 5
           (set_confirmed true Sample.alice) false).
  - reflexivity.
  - reflexivity.
Defined.

(** X6.  [confirm_token] stores nothing, and what it adds to the session
    does not outlast the call: for every configuration, user and token the
    session it leaves has no pending object and the stored tables of
    before, so a [commit] issued on the session afterwards, at any time,
    leaves the stored user table as it was before the call. *)
Theorem confirm_token_leaves_nothing_to_commit :
  forall timed_signature cfg now self token s
         (uuid4_hex : nat -> string) (import_time later : Z),
    let out := confirm_token timed_signature cfg now self token s in
    added_users (fst out) = []
    /\ db_users (fst out) = db_users s
    /\ db_roles (fst out) = db_roles s
    /\ db_users (commit uuid4_hex import_time later (fst out)) = db_users s
    /\ db_roles (commit uuid4_hex import_time later (fst out)) = db_roles s.
Proof.
  intros sg cfg now self token s uuid imp later.
  unfold confirm_token, db_session_manager.
  destruct (CONFIRMATION_LINK_TIMEOUT cfg) as [minutes |].
  - destruct (loads sg (SECRET_KEY cfg) now token (minutes * 60 * 1000))
      as [[data | text] | e].
    + destruct (ne_str (get "confirm" data) (user_uid self));
        repeat split.
    + repeat split.
    + destruct (isinstance_BadSignature e); [repeat split |].
      destruct (isinstance_Exception e); repeat split.
  - repeat split.
Qed.

(** ** Password-reset tokens *)

(** [decode] on a claim set the application signed that carries no
    registered claim other than [exp] and has not expired. *)
Lemma decode_plain_unexpired :
  forall (hs256 : string -> dict -> string)
         (validate_claims : dict -> instant -> option exn)
         (key : string) (now : instant) (claims : dict),
    plain claims ->
    unexpired now claims ->
    decode hs256 validate_claims (encode hs256 claims key) key now =
    Return claims.
Proof.
  intros hs vc key now claims Hplain Hexp.
  unfold encode, decode. rewrite String.eqb_refl.
  unfold plain in Hplain. rewrite Hplain.
  destruct Hexp as [Hexp | [(exp & Hexp & Hlt) | (exp & Hexp & Hlt)]];
    rewrite Hexp; [reflexivity | |];
    (destruct (Qle_bool _ _) eqn:E; [| reflexivity]);
    apply Qle_bool_iff in E; exfalso; apply (Qlt_not_le _ _ Hlt); exact E.
Qed.

(** X7.  [verify_reset_token] reads the claim with
    [...["reset_password"]]: on a token that carries the application's
    signature, no registered claim other than [exp], and has not expired,
    but has no such claim, it raises [KeyError]. *)
Theorem verify_reset_token_without_the_claim :
  forall (hs256 : string -> dict -> string)
         (validate_claims : dict -> instant -> option exn)
         (cfg : Config) (now : instant) (claims : dict),
    plain claims ->
    get "reset_password" claims = None ->
    unexpired now claims ->
    verify_reset_token hs256 validate_claims cfg now
                       (encode hs256 claims (SECRET_KEY cfg)) =
    Raise (KeyError "reset_password").
Proof.
  intros hs vc cfg now claims Hplain Hnone Hexp.
  unfold verify_reset_token.
  rewrite decode_plain_unexpired by assumption.
  rewrite Hnone. reflexivity.
Qed.

(** X7 at a sample: a signed token of another purpose, read at second 50
    with its expiry at second 60. *)
Lemma verify_reset_token_without_the_claim_sample :
  verify_reset_token Sample.hs256 Sample.validate_claims (Sample.cfg None)
    (Sample.tenths 500)
    (encode Sample.hs256 [("confirm", JStr "a1"); ("exp", JNum 60)] "key") =
  Raise (KeyError "reset_password").
Proof.
  apply (verify_reset_token_without_the_claim Sample.hs256
           Sample.validate_claims (Sample.cfg None) (Sample.tenths 500)
           [("confirm", JStr "a1"); ("exp", JNum 60)]).
  - reflexivity.
  - reflexivity.
  - right. left. exists 60. split; reflexivity.
Defined.

(** X8.  [verify_reset_token] asks for no [exp] claim: a token with the
    application's signature and a ["reset_password"] claim, but no [exp]
    and no other registered claim, verifies to that claim at every time;
    it never expires. *)
Theorem verify_reset_token_without_exp_never_expires :
  forall (hs256 : string -> dict -> string)
         (validate_claims : dict -> instant -> option exn)
         (cfg : Config) (claims : dict) (uid : jval),
    plain claims ->
    get "exp" claims = None ->
    get "reset_password" claims = Some uid ->
    forall now : instant,
      verify_reset_token hs256 validate_claims cfg now
                         (encode hs256 claims (SECRET_KEY cfg)) =
      Return uid.
Proof.
  intros hs vc cfg claims uid Hplain Hexp Hget now.
  unfold verify_reset_token.
  rewrite decode_plain_unexpired; [| exact Hplain | left; exact Hexp].
  rewrite Hget. reflexivity.
Qed.

(** X8 at a sample. *)
Lemma verify_reset_token_without_exp_sample :
  verify_reset_token Sample.hs256 Sample.validate_claims (Sample.cfg None)
    (Sample.tenths 10000000000)
    (encode Sample.hs256 [("reset_password", JStr "a1")] "key") =
  Return (JStr "a1").
Proof.
  apply (verify_reset_token_without_exp_never_expires Sample.hs256
           Sample.validate_claims (Sample.cfg None)
           [("reset_password", JStr "a1")] (JStr "a1")
           eq_refl eq_refl eq_refl).
Defined.

(** What [verify_reset_token] makes of a token [get_reset_token] issued,
    by the seconds gone since. *)
Lemma issued_reset_token_by_age :
  forall (hs256 : string -> dict -> string)
         (validate_claims : dict -> instant -> option exn)
         (cfg : Config) (self : User) (timeout : Z) (issued now : instant),
    ((inject_Z (timeout * 60) <= seconds now - seconds issued)%Q ->
     verify_reset_token hs256 validate_claims cfg now
                        (get_reset_token hs256 cfg issued self timeout) =
     Raise ExpiredSignatureError)
    /\ ((seconds now - seconds issued <= inject_Z (timeout * 60) - 1)%Q ->
        verify_reset_token hs256 validate_claims cfg now
                           (get_reset_token hs256 cfg issued self timeout) =
        Return (JStr (user_uid self))).
Proof.
  intros hs vc cfg self timeout issued now.
  rewrite verify_issued_reset_token.
  pose proof (python_int_above (expiry issued timeout)) as Habove.
  fold (expiry_second issued timeout) in Habove.
  pose proof (seconds_nonneg now) as Hnow.
  split; intros H.
  - replace (Qle_bool _ _) with true; [reflexivity |].
    symmetry. apply Qle_bool_iff.
    destruct (Qlt_le_dec (expiry issued timeout) 0) as [Hneg | Hpos].
    + pose proof (python_int_negative _ Hneg) as Hle.
      fold (expiry_second issued timeout) in Hle. lra.
    + pose proof (python_int_below _ Hpos) as Hle.
      fold (expiry_second issued timeout) in Hle.
      unfold expiry in Hle. lra.
  - destruct (Qle_bool _ _) eqn:E; [| reflexivity].
    apply Qle_bool_iff in E. unfold expiry in Habove. exfalso. lra.
Qed.

(** X9.  A reset token asked for with a timeout of zero or fewer minutes is
    expired from the moment it is issued: verifying it then or at any later
    time raises [ExpiredSignatureError]. *)
Theorem reset_token_with_no_time_left :
  forall (hs256 : string -> dict -> string)
         (validate_claims : dict -> instant -> option exn)
         (cfg : Config) (self : User) (timeout : Z) (issued now : instant),
    timeout <= 0 ->
    (seconds issued <= seconds now)%Q ->
    verify_reset_token hs256 validate_claims cfg now
                       (get_reset_token hs256 cfg issued self timeout) =
    Raise ExpiredSignatureError.
Proof.
  intros hs vc cfg self timeout issued now Ht Hle.
  apply issued_reset_token_by_age.
  assert (Hq : (inject_Z (timeout * 60) <= inject_Z 0)%Q)
    by (rewrite <- Zle_Qle; lia).
  change (inject_Z 0) with 0%Q in Hq. lra.
Qed.

(** X9 at a sample: a timeout of 0, verified at the instant of issue. *)
Lemma reset_token_with_no_time_left_sample :
  verify_reset_token Sample.hs256 Sample.validate_claims (Sample.cfg None)
    (Sample.tenths 10005)
    (get_reset_token Sample.hs256 (Sample.cfg None) (Sample.tenths 10005)
                     Sample.alice 0) =
  Raise ExpiredSignatureError.
Proof.
  apply (reset_token_with_no_time_left Sample.hs256 Sample.validate_claims
           (Sample.cfg None) Sample.alice 0 (Sample.tenths 10005)
           (Sample.tenths 10005)); discriminate.
Defined.

(** X10.  Reset tokens of one user expire each on its own: of two tokens
    issued at the same instant with timeouts [short] and [long], at a time
    when the [short] minutes have gone by and at least one second of the
    [long] minutes is left, the first raises and the second still verifies
    to the user's id. *)
Theorem reset_tokens_expire_independently :
  forall (hs256 : string -> dict -> string)
         (validate_claims : dict -> instant -> option exn)
         (cfg : Config) (self : User) (short long : Z)
         (issued now : instant),
    (inject_Z (short * 60) <= seconds now - seconds issued)%Q ->
    (seconds now - seconds issued <= inject_Z (long * 60) - 1)%Q ->
    verify_reset_token hs256 validate_claims cfg now
                       (get_reset_token hs256 cfg issued self short) =
    Raise ExpiredSignatureError
    /\ verify_reset_token hs256 validate_claims cfg now
                          (get_reset_token hs256 cfg issued self long) =
       Return (JStr (user_uid self)).
Proof.
  intros hs vc cfg self short long issued now Hs Hl. split.
  - apply issued_reset_token_by_age. exact Hs.
  - apply issued_reset_token_by_age. exact Hl.
Qed.

(** X10 at a sample: 5 and 30 minutes, issued at second 1000.5 and read 10
    minutes later. *)
Lemma reset_tokens_expire_independently_sample :
  verify_reset_token Sample.hs256 Sample.validate_claims (Sample.cfg None)
    (Sample.tenths 16005)
    (get_reset_token Sample.hs256 (Sample.cfg None) (Sample.tenths 10005)
                     Sample.alice 5) =
  Raise ExpiredSignatureError
  /\ verify_reset_token Sample.hs256 Sample.validate_claims (Sample.cfg None)
       (Sample.tenths 16005)
       (get_reset_token Sample.hs256 (Sample.cfg None) (Sample.tenths 10005)
                        Sample.alice 30) =
     Return (JStr "a1").
Proof.
  apply (reset_tokens_expire_independently Sample.hs256
           Sample.validate_claims (Sample.cfg None) Sample.alice 5 30
           (Sample.tenths 10005) (Sample.tenths 16005));
    vm_compute; first [reflexivity | discriminate].
Defined.

(** ** [Role.Permissions] and [Role.permissions] *)

Lemma land_pow2 :
  forall f k : Z,
    0 <= k -> Z.land (2 ^ k) f = if Z.testbit f k then 2 ^ k else 0.
Proof.
  intros f k Hk. apply Z.bits_inj'. intros n Hn.
  rewrite Z.land_spec, Z.pow2_bits_eqb by exact Hk.
  destruct (Z.eqb_spec k n) as [-> | Hne].
  - destruct (Z.testbit f n); simpl.
    + rewrite Z.pow2_bits_eqb, Z.eqb_refl by exact Hn. reflexivity.
    + rewrite Z.bits_0. reflexivity.
  - simpl. destruct (Z.testbit f k).
    + rewrite Z.pow2_bits_eqb by exact Hk.
      symmetry. apply Z.eqb_neq. exact Hne.
    + rewrite Z.bits_0. reflexivity.
Qed.

Lemma value_pow2 :
  forall p, Permissions.value p = 2 ^ Permissions.position p.
Proof. intros []; reflexivity. Qed.

Lemma position_nonneg : forall p, 0 <= Permissions.position p.
Proof. intros []; simpl; lia. Qed.

(** [member in flag] tests the member's one bit. *)
Lemma Permissions_contains_testbit :
  forall flag p,
    Permissions_contains flag p = Z.testbit flag (Permissions.position p).
Proof.
  intros flag p. unfold Permissions_contains.
  rewrite value_pow2, land_pow2 by apply position_nonneg.
  destruct (Z.testbit flag (Permissions.position p)).
  - apply Z.eqb_refl.
  - apply Z.eqb_neq. destruct p; discriminate.
Qed.

Lemma fold_lor_testbit :
  forall ps acc i,
    Z.testbit (fold_left (fun acc p => Z.lor acc (Permissions.value p)) ps acc)
              i =
    Z.testbit acc i
    || existsb (fun p => Z.testbit (Permissions.value p) i) ps.
Proof.
  intros ps. induction ps as [| p ps IH]; intros acc i; simpl.
  - rewrite Bool.orb_false_r. reflexivity.
  - rewrite IH, Z.lor_spec, Bool.orb_assoc. reflexivity.
Qed.

Lemma value_testbit :
  forall p q,
    Z.testbit (Permissions.value p) (Permissions.position q) = true <-> p = q.
Proof.
  intros [] []; simpl; split; intros H; congruence || reflexivity.
Qed.

Lemma fold_lor_range :
  forall ps acc,
    0 <= acc <= 7 ->
    0 <= fold_left (fun acc p => Z.lor acc (Permissions.value p)) ps acc <= 7.
Proof.
  intros ps. induction ps as [| p ps IH]; intros acc Hacc; simpl.
  - exact Hacc.
  - apply IH.
    assert (Hcases : acc = 0 \/ acc = 1 \/ acc = 2 \/ acc = 3 \/ acc = 4
                     \/ acc = 5 \/ acc = 6 \/ acc = 7) by lia.
    destruct p; decompose [or] Hcases; subst acc;
      split; apply Z.leb_le; reflexivity.
Qed.

(** X12.  The members of [Role.Permissions] are distinct single bits:
    each value is a power of two, and two different members have no bit in
    common. *)
Theorem Permissions_members_are_distinct_bits :
  forall p q : Permissions.t,
    Permissions.value p = 2 ^ Permissions.position p
    /\ 0 <= Permissions.position p < 3
    /\ (p <> q ->
        Z.land (Permissions.value p) (Permissions.value q) = 0).
Proof.
  intros p q. split; [apply value_pow2 | split].
  - destruct p; simpl; lia.
  - destruct p, q; intros H; try reflexivity; contradiction H; reflexivity.
Qed.

(** X13.  Building a flag and reading it back: for every collection of
    members, the value of their union is one [Role.Permissions(...)]
    accepts and returns unchanged, and a member is in the resulting flag
    exactly when it was in the collection. *)
Theorem Permissions_union_round_trip :
  forall (boundary : flag_boundary) (ps : list Permissions.t),
    Permissions_of boundary (Permissions.union ps)
    = Return (Permissions.union ps)
    /\ (forall p, Permissions_contains (Permissions.union ps) p = true
                  <-> In p ps).
Proof.
  intros boundary ps. split.
  - pose proof (fold_lor_range ps 0 ltac:(lia)) as Hr.
    fold (Permissions.union ps) in Hr.
    unfold Permissions_of. change Permissions_all_bits with 7.
    change (Z.lnot 7) with (-8).
    replace (-8 <=? Permissions.union ps) with true
      by (symmetry; apply Z.leb_le; lia).
    replace (Permissions.union ps <=? 7) with true
      by (symmetry; apply Z.leb_le; lia).
    replace (Permissions.union ps <? 0) with false
      by (symmetry; apply Z.ltb_ge; lia).
    reflexivity.
  - intros p. rewrite Permissions_contains_testbit.
    unfold Permissions.union. rewrite fold_lor_testbit, Z.bits_0. simpl.
    rewrite existsb_exists. split.
    + intros (q & Hin & Hbit). apply value_testbit in Hbit. subst q.
      exact Hin.
    + intros Hin. exists p. split; [exact Hin |].
      apply value_testbit. reflexivity.
Qed.

(** The outcomes of [role.permissions]. *)
Lemma permissions_outcome :
  forall (boundary : flag_boundary) (self : Role),
    (-8 <= raw_permissions self <= 7 \/ boundary = CONFORM ->
     exists flag,
       permissions boundary self = Return flag
       /\ 0 <= flag <= 7
       /\ forall p, Permissions_contains flag p =
                    Z.testbit (raw_permissions self)
                              (Permissions.position p))
    /\ (raw_permissions self < -8 \/ 7 < raw_permissions self ->
        boundary = STRICT ->
        exists msg, permissions boundary self = Raise (ValueError msg))
    /\ (raw_permissions self < -8 \/ 7 < raw_permissions self ->
        boundary = CONFORM ->
        permissions boundary self
        = Return (Z.land (raw_permissions self) 7)).
Proof.
  intros boundary self. unfold permissions, Permissions_of.
  set (v := raw_permissions self).
  change Permissions_all_bits with 7. change (Z.lnot 7) with (-8).
  assert (Hflag : forall flag, flag = v mod 2 ^ 3 ->
            0 <= flag <= 7
            /\ forall p, Permissions_contains flag p =
                         Z.testbit v (Permissions.position p)).
  { intros flag ->. split.
    - pose proof (Z.mod_pos_bound v (2 ^ 3) ltac:(lia)). lia.
    - intros p. rewrite Permissions_contains_testbit.
      apply Z.mod_pow2_bits_low. destruct p; simpl; lia. }
  assert (Hland : Z.land v 7 = v mod 2 ^ 3)
    by (change 7 with (Z.ones 3); apply Z.land_ones; lia).
  destruct (Z.leb_spec (-8) v) as [Hlo | Hlo];
    [destruct (Z.leb_spec v 7) as [Hhi | Hhi] |]; cbn [andb].
  - split; [| split; intros Hout; lia].
    intros _. eexists. split; [reflexivity |].
    apply Hflag. destruct (Z.ltb_spec v 0).
    + apply Z.mod_unique with (q := -1); lia.
    + symmetry. apply Z.mod_small. lia.
  - split; [| split].
    + intros [Hr | ->]; [lia |].
      eexists. split; [reflexivity |]. apply Hflag. exact Hland.
    + intros _ ->. eexists. reflexivity.
    + intros _ ->. reflexivity.
  - split; [| split].
    + intros [Hr | ->]; [lia |].
      eexists. split; [reflexivity |]. apply Hflag. exact Hland.
    + intros _ ->. eexists. reflexivity.
    + intros _ ->. reflexivity.
Qed.

(** X14.  [role.permissions] returns a flag for every [raw_permissions]
    between -8 and 7: its value lies between 0 and 7 and it holds a member
    exactly when [raw_permissions] has the member's bit.  For every other
    integer the interpreter's [enum.Flag] decides: where its boundary is
    STRICT the property raises [ValueError]; where it is CONFORM the bits
    no member has are dropped and the property returns
    [raw_permissions & 7], a flag of the same description. *)
Theorem permissions_range :
  forall (boundary : flag_boundary) (self : Role),
    (-8 <= raw_permissions self <= 7 \/ boundary = CONFORM ->
     exists flag,
       permissions boundary self = Return flag
       /\ 0 <= flag <= 7
       /\ forall p, Permissions_contains flag p =
                    Z.testbit (raw_permissions self)
                              (Permissions.position p))
    /\ (raw_permissions self < -8 \/ 7 < raw_permissions self ->
        boundary = STRICT ->
        exists msg, permissions boundary self = Raise (ValueError msg))
    /\ (raw_permissions self < -8 \/ 7 < raw_permissions self ->
        boundary = CONFORM ->
        permissions boundary self
        = Return (Z.land (raw_permissions self) 7)).
Proof. exact permissions_outcome. Qed.

(** X14 at a sample: a stored value, and one out of range under each
    boundary. *)
Lemma permissions_range_sample :
  (exists flag,
      permissions STRICT (mkRole "r" "editor" "d" 3 true 0 0) = Return flag
      /\ Permissions_contains flag Permissions.EDITOR = true
      /\ Permissions_contains flag Permissions.ADMINISTRATOR = false)
  /\ (exists msg,
         permissions STRICT (mkRole "r" "root" "d" 8 true 0 0) =
         Raise (ValueError msg))
  /\ permissions CONFORM (mkRole "r" "root" "d" 8 true 0 0) = Return 0.
Proof.
  pose proof (permissions_range STRICT (mkRole "r" "editor" "d" 3 true 0 0))
    as (Hin & _ & _).
  pose proof (permissions_range STRICT (mkRole "r" "root" "d" 8 true 0 0))
    as (_ & Hout & _).
  pose proof (permissions_range CONFORM (mkRole "r" "root" "d" 8 true 0 0))
    as (_ & _ & Hdrop).
  split; [| split].
  - destruct Hin as (flag & Hf & _ & Hbits); [left; simpl; lia |].
    exists flag. split; [exact Hf |].
    rewrite !Hbits. split; reflexivity.
  - apply Hout; [right; simpl; lia | reflexivity].
  - apply Hdrop; [right; simpl; lia | reflexivity].
Defined.

(** ** More on [Role.initialize_role_table] *)

(** X15.  The seeded roles read back through [role.permissions]: after
    [initialize_role_table] on a table with unique names, the stored row
    named ["user"] holds REGISTERED and nothing else, the one named
    ["editor"] holds REGISTERED and EDITOR and not ADMINISTRATOR, and the
    one named ["admin"] holds all three. *)
Theorem seeded_roles_permissions :
  forall (boundary : flag_boundary)
         (uuid4_hex : nat -> string) (import_time now : Z) (s : Session),
    NoDup (map name (visible_roles uuid4_hex import_time now s)) ->
    forall row : Role,
      In row (db_roles (fst (initialize_role_table uuid4_hex import_time
                                                   now s))) ->
      (name row = "user" ->
       exists flag,
         permissions boundary row = Return flag
         /\ forall p, Permissions_contains flag p = true
                      <-> p = Permissions.REGISTERED)
      /\ (name row = "editor" ->
          exists flag,
            permissions boundary row = Return flag
            /\ forall p, Permissions_contains flag p = true
                         <-> p <> Permissions.ADMINISTRATOR)
      /\ (name row = "admin" ->
          exists flag,
            permissions boundary row = Return flag
            /\ forall p, Permissions_contains flag p = true).
Proof.
  intros boundary uuid imp now s Hnd row Hrow.
  destruct (initialize_role_table_rows uuid imp now s Hnd)
    as (_ & Hdb & _).
  rewrite Hdb in Hrow.
  destruct (seed_rows_table uuid imp now _
              (draws (flush uuid imp now s)) Hnd) as (_ & Hset & _).
  destruct (Hset (nth 0 roles (mkNewRole "" "" 0)) (or_introl eq_refl))
    as [_ Hsu].
  destruct (Hset (nth 1 roles (mkNewRole "" "" 0))
                 (or_intror (or_introl eq_refl))) as [_ Hse].
  destruct (Hset (nth 2 roles (mkNewRole "" "" 0))
                 (or_intror (or_intror (or_introl eq_refl)))) as [_ Hsa].
  unfold permissions. repeat split.
  - intros Hn. destruct (Hsu row Hrow Hn) as [_ Hp]. rewrite Hp.
    exists 1. split; [reflexivity |].
    intros []; split; intros H; reflexivity || discriminate.
  - intros Hn. destruct (Hse row Hrow Hn) as [_ Hp]. rewrite Hp.
    exists 3. split; [reflexivity |].
    intros []; split; intros H;
      reflexivity || discriminate || (contradiction H; reflexivity).
  - intros Hn. destruct (Hsa row Hrow Hn) as [_ Hp]. rewrite Hp.
    exists 7. split; [reflexivity |]. intros []; reflexivity.
Qed.

(** X15 at a sample: the ["admin"] row of a table seeded from nothing. *)
Lemma seeded_roles_permissions_sample :
  exists flag,
    permissions STRICT
                (fresh_role "0123456789abcdef" 0
                            (nth 2 roles (mkNewRole "" "" 0)))
    = Return flag
    /\ forall p, Permissions_contains flag p = true.
Proof.
  assert (Hnd : NoDup (map name (visible_roles Sample.uuid4_hex 0 10
                                                Sample.empty_session)))
    by constructor.
  apply (seeded_roles_permissions STRICT Sample.uuid4_hex 0 10
           Sample.empty_session Hnd
           (fresh_role "0123456789abcdef" 0
                       (nth 2 roles (mkNewRole "" "" 0)))).
  - right. right. left. reflexivity.
  - reflexivity.
Defined.

Section RoleTableMore.
Variable uuid4_hex : nat -> string.
Variable import_time : Z.

Local Abbreviation flushed' := (flush uuid4_hex import_time).
Local Abbreviation upsert_one' := (upsert_role uuid4_hex import_time).
Local Abbreviation initialize' :=
  (initialize_role_table uuid4_hex import_time).
Local Abbreviation visible' := (visible_roles uuid4_hex import_time).
Local Abbreviation upsert' := (upsert_rows uuid4_hex import_time).
Local Abbreviation seed' := (seed_rows uuid4_hex import_time).

(** One turn of the loop: it can raise nothing but [MultipleResultsFound],
    reaches no stored table, and leaves the user table of the transaction,
    pending users flushed in, as its first flush made it. *)
Lemma upsert_role_effects :
  forall now r s,
    (forall e, snd (upsert_one' now r s) = Raise e ->
               e = MultipleResultsFound)
    /\ db_users (fst (upsert_one' now r s)) = db_users s
    /\ db_roles (fst (upsert_one' now r s)) = db_roles s
    /\ tx_users (flushed' now (fst (upsert_one' now r s)))
       = tx_users (flushed' now s).
Proof.
  intros now r s. unfold upsert_role, flush.
  destruct (insert_roles uuid4_hex import_time now (added_roles s) (draws s)
                         (tx_roles s)) as [tbl n].
  simpl.
  destruct (filter _ tbl) as [| x [| y l]]; simpl; repeat split;
    intros e H; inversion H; reflexivity.
Qed.

Lemma for_each_upsert_role_effects :
  forall now rs s,
    (forall e, snd (for_each (upsert_one' now) rs s) = Raise e ->
               e = MultipleResultsFound)
    /\ db_users (fst (for_each (upsert_one' now) rs s)) = db_users s
    /\ db_roles (fst (for_each (upsert_one' now) rs s)) = db_roles s
    /\ tx_users (flushed' now (fst (for_each (upsert_one' now) rs s)))
       = tx_users (flushed' now s).
Proof.
  intros now rs. induction rs as [| r rs IH]; intros s; simpl.
  - repeat split. intros e H. discriminate H.
  - destruct (upsert_role_effects now r s) as (He & Hu & Hr & Ht).
    destruct (upsert_one' now r s) as [s1 [[] | e1]]; simpl in *.
    + destruct (IH s1) as (He' & Hu' & Hr' & Ht').
      repeat split; try congruence. exact He'.
    + repeat split; assumption.
Qed.

(** X17.  The first run: on a session that sees no role at all,
    [initialize_role_table] stores exactly three rows, in the order of
    [roles] -- ["user"], ["editor"], ["admin"] with permissions 1, 3
    and 7 -- each active, keyed by the next three values of [uuid4], with
    [created] and [updated] at the module's import time. *)
Theorem initialize_role_table_first_run :
  forall (now : Z) (s : Session),
    tx_roles s = [] ->
    added_roles s = [] ->
    snd (initialize' now s) = Return tt
    /\ db_roles (fst (initialize' now s)) =
       [ fresh_role (uuid4_hex (draws s)) import_time
                    (mkNewRole "user" "registered user permission" 1);
         fresh_role (uuid4_hex (S (draws s))) import_time
                    (mkNewRole "editor"
                       "user has ability to edit all content and comments"
                       3);
         fresh_role (uuid4_hex (S (S (draws s)))) import_time
              (mkNewRole "admin"
                 "administrator user with access to all of the application"
                 7) ]
    /\ draws (fst (initialize' now s)) = S (S (S (draws s))).
Proof.
  intros now s Htx Hadd.
  destruct (flush_nothing_pending uuid4_hex import_time now s Hadd)
    as [Hvis Hdr].
  assert (Hnd : NoDup (map name (visible' now s))).
  { unfold visible_roles. rewrite Hvis, Htx. constructor. }
  destruct (initialize_role_table_rows uuid4_hex import_time now s Hnd)
    as (Hret & Hdb & _ & Hdraws & _).
  unfold visible_roles in Hdb, Hdraws. rewrite Hvis, Hdr, Htx in Hdb, Hdraws.
  split; [exact Hret | split].
  - rewrite Hdb. reflexivity.
  - rewrite Hdraws. reflexivity.
Qed.

Lemma role_frame_assign_role :
  forall now r row,
    role_frame (assign_role import_time now r row) = role_frame row.
Proof.
  intros now r row. unfold assign_role. destruct (_ && _); reflexivity.
Qed.

Lemma upsert_rows_frame :
  forall now r tbl n,
    exists extra,
      map role_frame (fst (upsert' now r tbl n)) =
      map role_frame tbl ++ extra.
Proof.
  intros now r tbl n. destruct (In_name_dec (new_name r) tbl) as [H | H].
  - rewrite upsert_rows_present by exact H. simpl. exists [].
    rewrite app_nil_r, map_map. apply map_ext.
    intros row. destruct (named _ row);
      [apply role_frame_assign_role | reflexivity].
  - rewrite upsert_rows_absent by exact H. simpl.
    rewrite map_app. eexists. reflexivity.
Qed.

Lemma seed_rows_frame :
  forall now rs tbl n,
    exists extra,
      map role_frame (fst (seed' now rs tbl n)) = map role_frame tbl ++ extra.
Proof.
  intros now rs. induction rs as [| r rs IH]; intros tbl n; simpl.
  - exists []. rewrite app_nil_r. reflexivity.
  - destruct (upsert_rows_frame now r tbl n) as [e1 H1].
    destruct (upsert' now r tbl n) as [tbl' n']. simpl in H1.
    destruct (IH tbl' n') as [e2 H2]. rewrite H2, H1, <- app_assoc.
    eexists. reflexivity.
Qed.

(** A turn leaves a row alone when the row is not named like [r] or
    already carries [r]'s values. *)
Lemma upsert_rows_keeps_settled_row :
  forall now r tbl n row,
    In row tbl ->
    (name row = new_name r ->
     description row = new_description r
     /\ raw_permissions row = new_raw_permissions r) ->
    In row (fst (upsert' now r tbl n)).
Proof.
  intros now r tbl n row Hin Hs.
  destruct (String.eqb (name row) (new_name r)) eqn:E.
  - apply String.eqb_eq in E. destruct (Hs E) as [Hd Hp].
    rewrite upsert_rows_present
      by (rewrite <- E; apply in_map; exact Hin).
    simpl. apply in_map_iff. exists row. split; [| exact Hin].
    unfold named. rewrite E, String.eqb_refl.
    unfold assign_role. rewrite Hd, Hp, String.eqb_refl, Z.eqb_refl.
    reflexivity.
  - apply String.eqb_neq in E. apply upsert_rows_keeps_others; assumption.
Qed.

Lemma seed_rows_keeps_settled_row :
  forall now rs tbl n row,
    In row tbl ->
    (forall r, In r rs -> name row = new_name r ->
               description row = new_description r
               /\ raw_permissions row = new_raw_permissions r) ->
    In row (fst (seed' now rs tbl n)).
Proof.
  intros now rs. induction rs as [| r rs IH]; intros tbl n row Hin Hs;
    simpl in *.
  - exact Hin.
  - pose proof (upsert_rows_keeps_settled_row now r tbl n row Hin
                  (Hs r (or_introl eq_refl))) as H1.
    destruct (upsert' now r tbl n) as [tbl' n']. simpl in H1.
    apply IH; [exact H1 |]. intros r' Hr'. apply Hs. right. exact Hr'.
Qed.

(** X18.  What [initialize_role_table] leaves alone, on a table with
    unique names: every row that was there keeps, in place, its
    [role_uid], [name], [active] flag and [created] time (a deactivated
    role stays deactivated); and a row whose description and permissions
    already are the ones of [roles] is stored back unchanged in every
    column, [updated] included. *)
Theorem initialize_role_table_frame :
  forall (now : Z) (s : Session),
    NoDup (map name (visible' now s)) ->
    (exists extra,
        map role_frame (db_roles (fst (initialize' now s))) =
        map role_frame (visible' now s) ++ extra)
    /\ (forall row,
          In row (visible' now s) ->
          (forall r, In r roles -> name row = new_name r ->
                     description row = new_description r
                     /\ raw_permissions row = new_raw_permissions r) ->
          In row (db_roles (fst (initialize' now s)))).
Proof.
  intros now s Hnd.
  destruct (initialize_role_table_rows uuid4_hex import_time now s Hnd)
    as (_ & Hdb & _).
  rewrite Hdb. split.
  - apply seed_rows_frame.
  - intros row Hrow Hs. apply seed_rows_keeps_settled_row; assumption.
Qed.

(** X19.  [initialize_role_table] commits the shared session, not only
    its own rows: when it succeeds, the stored user table is the user
    table of the transaction with every user that was pending in the
    session flushed into it. *)
Theorem initialize_role_table_commits_pending_users :
  forall (now : Z) (s : Session),
    snd (initialize' now s) = Return tt ->
    db_users (fst (initialize' now s)) = tx_users (flushed' now s).
Proof.
  intros now s. unfold initialize_role_table, db_session_manager.
  destruct (for_each_upsert_role_effects now roles s) as (_ & _ & _ & Ht).
  destruct (for_each (upsert_one' now) roles s) as [s3 [[] | e']];
    simpl in *; [| discriminate].
  intros _. exact Ht.
Qed.

End RoleTableMore.

(** X17 at a sample: the empty session. *)
Lemma initialize_role_table_first_run_sample :
  map (fun row => (name row, raw_permissions row, role_active row))
      (db_roles (fst (initialize_role_table Sample.uuid4_hex 0 10
                                            Sample.empty_session)))
  = [("user", 1, true); ("editor", 3, true); ("admin", 7, true)].
Proof.
  destruct (initialize_role_table_first_run Sample.uuid4_hex 0 10
              Sample.empty_session eq_refl eq_refl) as (_ & Hdb & _).
  rewrite Hdb. reflexivity.
Defined.

(** X18 at a sample: a deactivated ["editor"] with a stale description
    stays deactivated, with its key and creation time. *)
Lemma initialize_role_table_frame_sample :
  let stale := mkRole "e0" "editor" "old text" 2 false 5 6 in
  let s := mkSession [] [stale] [] [stale] [] [] 0 [] in
  exists extra,
    map role_frame (db_roles (fst (initialize_role_table Sample.uuid4_hex 0
                                                         10 s)))
    = ("e0", "editor", false, 5) :: extra.
Proof.
  cbv zeta.
  assert (Hnd : NoDup (map name
            (visible_roles Sample.uuid4_hex 0 10
               (mkSession [] [mkRole "e0" "editor" "old text" 2 false 5 6]
                          [] [mkRole "e0" "editor" "old text" 2 false 5 6]
                          [] [] 0 [])))).
  { repeat constructor; simpl; tauto. }
  destruct (initialize_role_table_frame Sample.uuid4_hex 0 10 _ Hnd)
    as [(extra & Hframe) _].
  exists extra. exact Hframe.
Defined.

(** X19 at a sample: Alice was added to the session before the call. *)
Lemma initialize_role_table_commits_pending_users_sample :
  db_users (fst (initialize_role_table Sample.uuid4_hex 0 10
                   (add_user Sample.alice Sample.empty_session)))
  = [Sample.alice].
Proof.
  rewrite (initialize_role_table_commits_pending_users Sample.uuid4_hex 0 10
             (add_user Sample.alice Sample.empty_session) eq_refl).
  reflexivity.
Defined.

(** ** The two [__repr__] *)


